(** * AST2400 SoC integration layer (hw/arm/ast2400.c)

    A shallow embedding of the realize sequence of the AST2400 SoC and of the
    handlers of its catch-all IO region.  The collaborators the file calls
    (the QOM property setters, sysbus, the memory API, the error API, the
    serial and I2C helpers) live in other files: every call to one of them is
    recorded, with its arguments, as an event of a trace, and the result of
    every fallible call is read from an environment. *)

From Stdlib Require Import ZArith List String Bool Lia.
Import ListNotations.

Open Scope string_scope.
Open Scope list_scope.
Open Scope Z_scope.

(** ** Constants of the file *)

Definition AST2400_UART_5_BASE : Z := 0x00184000.
Definition AST2400_IOMEM_SIZE  : Z := 0x00200000.
Definition AST2400_IOMEM_BASE  : Z := 0x1E600000.
Definition CDNS_GEM_ADDR       : Z := 0x1E680000.
Definition AST2400_VIC_BASE    : Z := 0x1E6C0000.
Definition AST2400_SCU_BASE    : Z := 0x1E6E2000.
Definition AST2400_TIMER_BASE  : Z := 0x1E782000.
Definition AST2400_I2C_BASE    : Z := 0x1E78A000.

Definition uart_irqs  : list Z := [9; 32; 33; 34; 10].
Definition timer_irqs : list Z := [16; 17; 18; 35; 36; 37; 38; 39].

Definition CDNS_GEM_IRQ : Z := 3.

(** ** Objects, regions and interrupt lines *)

(** The devices the SoC owns ([s->cpu], [&s->vic], ...) and the slaves that
    [i2c_create_slave] returns. *)
Inductive Obj : Type :=
| cpu
| vic
| gem
| timerctrl
| scu
| i2c
| i2c_slave (bus : I2CBus) (name : string) (addr : Z)
with I2CBus : Type :=
| aspeed_i2c_get_bus (dev : Obj) (busnr : Z).

Inductive MemoryRegion : Type :=
| get_system_memory
| sram
| iomem
| sysbus_mmio (dev : Obj) (n : Z)
| serial_io (chr : string).

(** [qemu_irq] values are only ever obtained from [qdev_get_gpio_in]. *)
Inductive qemu_irq : Type :=
| qdev_get_gpio_in (dev : Obj) (n : Z).

Inductive device_endian : Type :=
| DEVICE_NATIVE_ENDIAN
| DEVICE_BIG_ENDIAN
| DEVICE_LITTLE_ENDIAN.

(** QOM type names used as NIC model names; the macro is declared in the
    header of the device. *)
Inductive TypeName : Type :=
| TYPE_CADENCE_GEM.

(** Identifier of a [MemoryRegionOps] table; the table itself is
    [ast2400_io_ops] below. *)
Inductive OpsId : Type :=
| ast2400_io_ops_id.

Definition Error := string.
Definition CharDriverState := string.

(** [nd_table[0]]: the description of the first configured NIC.  The
    structure is declared outside this file; what is kept of it is the model
    name and the backend, each of which may be absent. *)
Record NICInfo : Type := {
  nd_model  : option string;
  nd_netdev : option string
}.

(** ** Collaborator calls

    One constructor per collaborator function, with the arguments of the call
    sites in their order; the [NULL] owner and opaque arguments of the memory
    API and the [&err] argument of the property setters are left out. *)

Inductive Event : Type :=
| E_memory_region_allocate_system_memory (mr : MemoryRegion) (name : string) (size : Z)
| E_memory_region_add_subregion (container : MemoryRegion) (offset : Z) (mr : MemoryRegion)
| E_memory_region_init_io (mr : MemoryRegion) (ops : OpsId) (name : string) (size : Z)
| E_memory_region_add_subregion_overlap
    (container : MemoryRegion) (offset : Z) (mr : MemoryRegion) (priority : Z)
| E_object_property_set_int (o : Obj) (value : Z) (name : string)
| E_object_property_set_bool (o : Obj) (value : bool) (name : string)
| E_sysbus_mmio_map (dev : Obj) (n : Z) (addr : Z)
| E_sysbus_connect_irq (dev : Obj) (n : Z) (irq : qemu_irq)
| E_qemu_check_nic_model (nd : NICInfo) (model : TypeName)
| E_qdev_set_nic_properties (dev : Obj) (nd : NICInfo)
| E_serial_mm_init (address_space : MemoryRegion) (base : Z) (stride : Z)
    (irq : qemu_irq) (baudbase : Z) (chr : CharDriverState) (e : device_endian)
| E_i2c_create_slave (bus : I2CBus) (name : string) (addr : Z).

(** ** Environment

    What the file reads from outside: constants of headers that are not part
    of it, the global tables [serial_hds] and [nd_table], and the result of
    every fallible collaborator call ([None]: no error reported).  Every
    fallible call of the realize sequence has its own arguments, so a result
    that depends on the arguments covers collaborators whose behaviour
    depends on what happened before. *)
Record Env : Type := {
  AST2400_SRAM_BASE : Z;
  AST2400_SRAM_SIZE : Z;
  ARM_CPU_IRQ : Z;
  ARM_CPU_FIQ : Z;
  serial_hds0 : option CharDriverState;
  nd_table0 : NICInfo;
  set_int_result : Obj -> Z -> string -> option Error;
  set_bool_result : Obj -> bool -> string -> option Error;
  (** what the error API does when a callee reports an error into [&err]
      while [err] already holds one: [None] is a process abort, [Some e] the
      error held afterwards *)
  error_set_again : Error -> Error -> option Error
}.

(** ** The realize monad

    State threaded through [ast2400_realize]: the collaborator calls made so
    far, oldest first, and the local [Error *err]. *)
Record State : Type := {
  trace : list Event;
  err : option Error
}.

(** How a run ends: the function returned, with what it left in [*errp], or
    the process was aborted inside a collaborator. *)
Inductive Result : Type :=
| Finished (errp : option Error) (tr : list Event)
| Crashed (tr : list Event).

Inductive Outcome (A : Type) : Type :=
| Next (a : A) (s : State)
| Exit (r : Result).
Arguments Next {A} a s.
Arguments Exit {A} r.

Definition M (A : Type) : Type := State -> Outcome A.

Definition ret {A} (a : A) : M A := fun s => Next a s.

Definition bind {A B} (m : M A) (k : A -> M B) : M B :=
  fun s => match m s with
           | Next a s' => k a s'
           | Exit r => Exit r
           end.

Declare Scope realize_scope.
Delimit Scope realize_scope with realize.
Notation "x <- m ;; k" := (bind m (fun x => k))
  (at level 100, m at next level, right associativity) : realize_scope.
Notation "m ;; k" := (bind m (fun _ => k))
  (at level 100, right associativity) : realize_scope.
Open Scope realize_scope.

(** Record a collaborator call. *)
Definition emit (e : Event) : M unit :=
  fun s => Next tt {| trace := trace s ++ [e]; err := err s |}.

(** A callee's use of [&err]: nothing on success, the error on failure. *)
Definition report (env : Env) (r : option Error) : M unit :=
  fun s =>
    match r with
    | None => Next tt s
    | Some e =>
        match err s with
        | None => Next tt {| trace := trace s; err := Some e |}
        | Some e0 =>
            match error_set_again env e0 e with
            | Some e' => Next tt {| trace := trace s; err := Some e' |}
            | None => Exit (Crashed (trace s))
            end
        end
    end.

(** [if (err) { error_propagate(errp, err); return; }] *)
Definition if_err_propagate_return : M unit :=
  fun s =>
    match err s with
    | Some e => Exit (Finished (Some e) (trace s))
    | None => Next tt s
    end.

(** [for (i = from; i < from + n; i++) body(i)] *)
Fixpoint for_loop (from : Z) (n : nat) (body : Z -> M unit) : M unit :=
  match n with
  | O => ret tt
  | S n' => body from ;; for_loop (from + 1) n' body
  end.

Definition ARRAY_SIZE {A} (a : list A) : nat := List.length a.

Section Collaborators.
Variable env : Env.

Definition memory_region_allocate_system_memory mr name size : M unit :=
  emit (E_memory_region_allocate_system_memory mr name size).
Definition memory_region_add_subregion c off mr : M unit :=
  emit (E_memory_region_add_subregion c off mr).
Definition memory_region_init_io mr ops name size : M unit :=
  emit (E_memory_region_init_io mr ops name size).
Definition memory_region_add_subregion_overlap c off mr prio : M unit :=
  emit (E_memory_region_add_subregion_overlap c off mr prio).

(** The last argument of the two setters is [&err] at every call site. *)
Definition object_property_set_int (o : Obj) (v : Z) (name : string) : M unit :=
  emit (E_object_property_set_int o v name) ;;
  report env (set_int_result env o v name).
Definition object_property_set_bool (o : Obj) (v : bool) (name : string) : M unit :=
  emit (E_object_property_set_bool o v name) ;;
  report env (set_bool_result env o v name).

Definition sysbus_mmio_map dev n addr : M unit :=
  emit (E_sysbus_mmio_map dev n addr).
Definition sysbus_connect_irq dev n irq : M unit :=
  emit (E_sysbus_connect_irq dev n irq).
Definition qemu_check_nic_model nd model : M unit :=
  emit (E_qemu_check_nic_model nd model).
Definition qdev_set_nic_properties dev nd : M unit :=
  emit (E_qdev_set_nic_properties dev nd).
Definition serial_mm_init c base stride irq baudbase chr e : M unit :=
  emit (E_serial_mm_init c base stride irq baudbase chr e).
Definition i2c_create_slave bus name addr : M Obj :=
  emit (E_i2c_create_slave bus name addr) ;;
  ret (i2c_slave bus name addr).

(** ** [ast2400_realize] *)
Definition ast2400_realize : M unit :=
  (* SRAM *)
  memory_region_allocate_system_memory sram "ast2400.sram"
                                       (AST2400_SRAM_SIZE env) ;;
  memory_region_add_subregion get_system_memory (AST2400_SRAM_BASE env) sram ;;
  (* IO space *)
  memory_region_init_io iomem ast2400_io_ops_id "ast2400.io" AST2400_IOMEM_SIZE ;;
  memory_region_add_subregion_overlap get_system_memory AST2400_IOMEM_BASE
                                      iomem (-1) ;;
  (* VIC *)
  object_property_set_int vic 0x00001F07FFF8FFFF "sense" ;;
  object_property_set_int vic 0x000000F800070000 "dual_edge" ;;
  object_property_set_int vic 0x00005F07FFF8FFFF "event" ;;
  if_err_propagate_return ;;
  object_property_set_bool vic true "realized" ;;
  if_err_propagate_return ;;
  sysbus_mmio_map vic 0 AST2400_VIC_BASE ;;
  sysbus_connect_irq vic 0 (qdev_get_gpio_in cpu (ARM_CPU_IRQ env)) ;;
  sysbus_connect_irq vic 1 (qdev_get_gpio_in cpu (ARM_CPU_FIQ env)) ;;
  (* Timer *)
  object_property_set_bool timerctrl true "realized" ;;
  if_err_propagate_return ;;
  sysbus_mmio_map timerctrl 0 AST2400_TIMER_BASE ;;
  for_loop 0 (ARRAY_SIZE timer_irqs) (fun i =>
    let irq := qdev_get_gpio_in vic (nth (Z.to_nat i) timer_irqs 0) in
    sysbus_connect_irq timerctrl i irq) ;;
  (* Cadence GEM *)
  qemu_check_nic_model (nd_table0 env) TYPE_CADENCE_GEM ;;
  qdev_set_nic_properties gem (nd_table0 env) ;;
  object_property_set_bool gem true "realized" ;;
  if_err_propagate_return ;;
  sysbus_mmio_map gem 0 CDNS_GEM_ADDR ;;
  sysbus_connect_irq gem 0 (qdev_get_gpio_in vic CDNS_GEM_IRQ) ;;
  (* SCU *)
  object_property_set_int scu 0x19FC3E8B "scu0c" ;;
  object_property_set_int scu 0x01000000 "scu88" ;;
  object_property_set_int scu 0x000000FF "scu8c" ;;
  object_property_set_int scu 0x003FFFF3 "scu9c" ;;
  object_property_set_bool scu true "realized" ;;
  if_err_propagate_return ;;
  sysbus_mmio_map scu 0 AST2400_SCU_BASE ;;
  (* UART - attach an 8250 to the IO space as our UART5 *)
  match serial_hds0 env with
  | Some chr =>
      let uart5 := qdev_get_gpio_in vic (nth 4 uart_irqs 0) in
      serial_mm_init iomem AST2400_UART_5_BASE 2 uart5 38400 chr
                     DEVICE_LITTLE_ENDIAN
  | None => ret tt
  end ;;
  (* I2C *)
  object_property_set_bool i2c true "realized" ;;
  if_err_propagate_return ;;
  sysbus_mmio_map i2c 0 AST2400_I2C_BASE ;;
  sysbus_connect_irq i2c 0 (qdev_get_gpio_in vic 12) ;;
  (* add a TMP423 temperature sensor *)
  dev <- i2c_create_slave (aspeed_i2c_get_bus i2c 2) "tmp423" 0x4c ;;
  object_property_set_int dev 31000 "temperature0" ;;
  object_property_set_int dev 28000 "temperature1" ;;
  object_property_set_int dev 20000 "temperature2" ;;
  object_property_set_int dev 110000 "temperature3" ;;
  (* a ds1338 stands in for the ds3231 RTC *)
  _ <- i2c_create_slave (aspeed_i2c_get_bus i2c 0) "ds1338" 0x68 ;;
  ret tt.

(** A whole run: [err] starts as [NULL], nothing has been called yet, and
    falling off the end of the function leaves [*errp] untouched. *)
Definition compose : Result :=
  match ast2400_realize {| trace := []; err := None |} with
  | Next _ s => Finished None (trace s)
  | Exit r => r
  end.
End Collaborators.

Definition trace_of (r : Result) : list Event :=
  match r with
  | Finished _ tr => tr
  | Crashed tr => tr
  end.

(** The environment in which no collaborator reports an error, everything
    else as in [env]. *)
Definition succeeding (env : Env) : Env :=
  {| AST2400_SRAM_BASE := AST2400_SRAM_BASE env;
     AST2400_SRAM_SIZE := AST2400_SRAM_SIZE env;
     ARM_CPU_IRQ := ARM_CPU_IRQ env;
     ARM_CPU_FIQ := ARM_CPU_FIQ env;
     serial_hds0 := serial_hds0 env;
     nd_table0 := nd_table0 env;
     set_int_result := fun _ _ _ => None;
     set_bool_result := fun _ _ _ => None;
     error_set_again := error_set_again env |}.

(** The calls of a run that no failure cuts short. *)
Definition full_trace (env : Env) : list Event :=
  trace_of (compose (succeeding env)).

(** ** The catch-all IO handlers

    What a handler can touch: the state reachable from its opaque pointer and
    from globals, whatever it is, and the log, which holds the calls of
    [qemu_log_mask] in order (whether a record is printed is decided by the
    logger from its mask). *)
Inductive LogMask : Type :=
| LOG_UNIMP.

Record LogRecord : Type := {
  log_mask   : LogMask;
  log_func   : string;
  log_offset : Z;
  log_value  : option Z;
  log_size   : Z
}.

Record World (S : Type) : Type := {
  guest : S;
  log : list LogRecord
}.
Arguments guest {S} w.
Arguments log {S} w.

Definition IO (S A : Type) : Type := World S -> A * World S.

Definition qemu_log_mask {S} (mask : LogMask) (func : string) (offset : Z)
    (value : option Z) (size : Z) : IO S unit :=
  fun w =>
    (tt, {| guest := guest w;
            log := log w ++ [ {| log_mask := mask; log_func := func;
                                 log_offset := offset; log_value := value;
                                 log_size := size |} ] |}).

Definition ast2400_io_read {S} (offset : Z) (size : Z) : IO S Z :=
  fun w =>
    let (_, w') := qemu_log_mask LOG_UNIMP "ast2400_io_read" offset None size w in
    (0, w').

Definition ast2400_io_write {S} (offset : Z) (value : Z) (size : Z) : IO S unit :=
  fun w =>
    qemu_log_mask LOG_UNIMP "ast2400_io_write" offset (Some value) size w.

Record MemoryRegionOps (S : Type) : Type := {
  read : Z -> Z -> IO S Z;
  write : Z -> Z -> Z -> IO S unit;
  endianness : device_endian
}.
Arguments read {S} m.
Arguments write {S} m.
Arguments endianness {S} m.

Definition ast2400_io_ops {S} : MemoryRegionOps S :=
  {| read := ast2400_io_read;
     write := ast2400_io_write;
     endianness := DEVICE_LITTLE_ENDIAN |}.

Definition ops_table {S} (id : OpsId) : MemoryRegionOps S :=
  match id with
  | ast2400_io_ops_id => ast2400_io_ops
  end.

(** ** Decidable equality on the identifiers *)

Fixpoint Obj_eq_dec (a b : Obj) {struct a} : {a = b} + {a <> b}
with I2CBus_eq_dec (a b : I2CBus) {struct a} : {a = b} + {a <> b}.
Proof.
  - decide equality; auto using string_dec, Z.eq_dec.
  - decide equality; auto using Z.eq_dec.
Defined.

Definition MemoryRegion_eq_dec (a b : MemoryRegion) : {a = b} + {a <> b}.
Proof. decide equality; auto using string_dec, Z.eq_dec, Obj_eq_dec. Defined.

(** ** Reading a trace *)

(** The device a call configures, activates, maps or whose output it wires. *)
Definition subject (ev : Event) : option Obj :=
  match ev with
  | E_object_property_set_int o _ _ => Some o
  | E_object_property_set_bool o _ _ => Some o
  | E_sysbus_mmio_map d _ _ => Some d
  | E_sysbus_connect_irq d _ _ => Some d
  | E_qdev_set_nic_properties d _ => Some d
  | _ => None
  end.

(** What a fallible call reported in [env]; the other calls report nothing. *)
Definition result_of (env : Env) (ev : Event) : option Error :=
  match ev with
  | E_object_property_set_int o v name => set_int_result env o v name
  | E_object_property_set_bool o v name => set_bool_result env o v name
  | _ => None
  end.

(** Setting the "realized" property of [p] to true. *)
Definition activation (p : Obj) : Event :=
  E_object_property_set_bool p true "realized".

Definition is_uart (ev : Event) : bool :=
  match ev with
  | E_serial_mm_init _ _ _ _ _ _ _ => true
  | _ => false
  end.

Definition uarts (tr : list Event) : list Event := filter is_uart tr.

(** *** Interrupt wiring *)

Inductive IrqSource : Type :=
| sysbus_irq_out (dev : Obj) (n : Z)
| serial_irq_out (chr : CharDriverState).

Definition IrqSource_eq_dec (a b : IrqSource) : {a = b} + {a <> b}.
Proof. decide equality; auto using string_dec, Z.eq_dec, Obj_eq_dec. Defined.

Definition wire_of (ev : Event) : list (IrqSource * qemu_irq) :=
  match ev with
  | E_sysbus_connect_irq d n irq => [(sysbus_irq_out d n, irq)]
  | E_serial_mm_init _ _ _ irq _ chr _ => [(serial_irq_out chr, irq)]
  | _ => []
  end.

Definition irq_wiring (tr : list Event) : list (IrqSource * qemu_irq) :=
  flat_map wire_of tr.

(** Every line that output [src] has been connected to, in call order. *)
Definition irq_targets (tr : list Event) (src : IrqSource) : list qemu_irq :=
  map snd (filter (fun w => if IrqSource_eq_dec (fst w) src then true else false)
                  (irq_wiring tr)).

(** The wires that leave the outputs of sysbus device [d], in call order. *)
Definition wires_from (tr : list Event) (d : Obj) : list (IrqSource * qemu_irq) :=
  filter (fun w => match fst w with
                   | sysbus_irq_out d' _ => if Obj_eq_dec d' d then true else false
                   | serial_irq_out _ => false
                   end)
         (irq_wiring tr).

(** *** Address space *)

Record Subregion : Type := {
  sub_container : MemoryRegion;
  sub_offset    : Z;
  sub_region    : MemoryRegion;
  sub_priority  : Z
}.

(** Modelled from the spec: the address-space collaborator (the memory API,
    sysbus and the serial helper are outside this file) keeps the regions
    inserted so far, each with the container it was inserted in, its offset
    there and a priority.  [memory_region_add_subregion_overlap] inserts with
    the priority it is given; the other three ways of inserting a region
    ([memory_region_add_subregion], [sysbus_mmio_map] into system memory,
    [serial_mm_init] into the container it is given) use the default
    priority 0. *)
Definition subregion_of (ev : Event) : list Subregion :=
  match ev with
  | E_memory_region_add_subregion c off mr =>
      [ {| sub_container := c; sub_offset := off; sub_region := mr;
           sub_priority := 0 |} ]
  | E_memory_region_add_subregion_overlap c off mr prio =>
      [ {| sub_container := c; sub_offset := off; sub_region := mr;
           sub_priority := prio |} ]
  | E_sysbus_mmio_map d n addr =>
      [ {| sub_container := get_system_memory; sub_offset := addr;
           sub_region := sysbus_mmio d n; sub_priority := 0 |} ]
  | E_serial_mm_init c base _ _ _ chr _ =>
      [ {| sub_container := c; sub_offset := base; sub_region := serial_io chr;
           sub_priority := 0 |} ]
  | _ => []
  end.

Definition address_space (tr : list Event) : list Subregion :=
  flat_map subregion_of tr.

(** The size a region was created with, for the regions this file creates. *)
Definition created_size (r : MemoryRegion) (ev : Event) : list Z :=
  match ev with
  | E_memory_region_allocate_system_memory mr _ size =>
      if MemoryRegion_eq_dec mr r then [size] else []
  | E_memory_region_init_io mr _ _ size =>
      if MemoryRegion_eq_dec mr r then [size] else []
  | _ => []
  end.

Section Dispatch.
(** The size of the regions that device models create (the MMIO regions of
    the sysbus devices and the register file of the UART): they are set
    outside this file. *)
Variable device_size : MemoryRegion -> Z.

Definition region_size (tr : list Event) (r : MemoryRegion) : Z :=
  match r with
  | sysbus_mmio _ _ | serial_io _ => device_size r
  | _ => hd 0 (flat_map (created_size r) tr)
  end.

Definition covers (tr : list Event) (m : Subregion) (addr : Z) : bool :=
  (sub_offset m <=? addr) &&
  (addr <? sub_offset m + region_size tr (sub_region m)).

(** The regions inserted in container [c] that cover [addr]. *)
Definition candidates (tr : list Event) (c : MemoryRegion) (addr : Z)
  : list Subregion :=
  filter (fun m =>
            (if MemoryRegion_eq_dec (sub_container m) c then true else false)
            && covers tr m addr)
         (address_space tr).

(** Modelled from the spec: where regions overlap, the one with the higher
    priority is the one an access reaches.  Regions of equal priority that
    overlap are all kept: the spec gives no rule between them. *)
Definition top_layer (l : list Subregion) : list Subregion :=
  filter (fun m => forallb (fun m' => sub_priority m' <=? sub_priority m) l) l.

(** Modelled from the spec: the region(s) whose handler an access at
    absolute address [addr] reaches.  A region inserted inside the region
    found in system memory (the UART inside the IO window) is reached
    instead of its container. *)
Definition dispatch (tr : list Event) (addr : Z) : list MemoryRegion :=
  flat_map
    (fun m =>
       match top_layer (candidates tr (sub_region m) (addr - sub_offset m)) with
       | [] => [sub_region m]
       | inner => map sub_region inner
       end)
    (top_layer (candidates tr get_system_memory addr)).
End Dispatch.

(** The catch-all region as [ast2400_realize] inserts it. *)
Definition catch_all_subregion : Subregion :=
  {| sub_container := get_system_memory; sub_offset := AST2400_IOMEM_BASE;
     sub_region := iomem; sub_priority := -1 |}.

(** A subregion is either the catch-all or a region of priority 0, inserted
    in system memory or in the catch-all. *)
Definition layered (m : Subregion) : Prop :=
  m = catch_all_subregion
  \/ (sub_priority m = 0
      /\ sub_region m <> iomem
      /\ sub_region m <> get_system_memory
      /\ (sub_container m = get_system_memory \/ sub_container m = iomem)).

(** The sysbus peripherals and the base address each is mapped at. *)
Definition peripheral_bases : list (Obj * Z) :=
  [ (vic, AST2400_VIC_BASE); (timerctrl, AST2400_TIMER_BASE);
    (gem, CDNS_GEM_ADDR); (scu, AST2400_SCU_BASE); (i2c, AST2400_I2C_BASE) ].

(** Sizes for the examples: 4 KiB of registers per sysbus device, 32 bytes
    for the UART. *)
Definition example_size (r : MemoryRegion) : Z :=
  match r with
  | sysbus_mmio _ _ => 0x1000
  | serial_io _ => 32
  | _ => 0
  end.

(** Modelled from the spec: the third argument of [serial_mm_init] (the
    helper is outside this file) is the addressing stride of the UART
    registers, in bytes; this is the stride in bits. *)
Definition uart_stride_bits (ev : Event) : option Z :=
  match ev with
  | E_serial_mm_init _ _ stride _ _ _ _ => Some (8 * stride)
  | _ => None
  end.

(** *** Order of the sequence *)

(** The sysbus peripherals in the order the sequence activates them. *)
Definition activation_order : list Obj := [vic; timerctrl; gem; scu; i2c].

(** The peripherals activated after [p]. *)
Fixpoint activated_after (p : Obj) (l : list Obj) : list Obj :=
  match l with
  | [] => []
  | x :: l' => if Obj_eq_dec x p then l' else activated_after p l'
  end.

Definition is_activation_of (p : Obj) (ev : Event) : bool :=
  match ev with
  | E_object_property_set_bool o true name =>
      (if Obj_eq_dec o p then true else false)
      && (if string_dec name "realized" then true else false)
  | _ => false
  end.

(** The part of [l] that comes before the first call that satisfies [f]. *)
Fixpoint before (f : Event -> bool) (l : list Event) : list Event :=
  match l with
  | [] => []
  | x :: l' => if f x then [] else x :: before f l'
  end.

(** The calls that the sequence makes before it activates [p]. *)
Definition calls_before (p : Obj) (env : Env) : list Event :=
  before (is_activation_of p) (full_trace env).

Definition is_slave_creation (ev : Event) : bool :=
  match ev with
  | E_i2c_create_slave _ _ _ => true
  | _ => false
  end.

(** *** Checks of the error cell *)

Definition is_property_call (ev : Event) : bool :=
  match ev with
  | E_object_property_set_int _ _ _ => true
  | E_object_property_set_bool _ _ _ => true
  | _ => false
  end.

Definition is_success (r : Result) : bool :=
  match r with
  | Finished None _ => true
  | _ => false
  end.

(** "Checked immediately": no collaborator call is made after a call that
    reported an error. *)
Definition checked_immediately (env : Env) : Prop :=
  forall pre ev post,
    trace_of (compose env) = pre ++ ev :: post ->
    result_of env ev <> None ->
    post = [].

(** What may follow, in a trace, a failed call [ev] on peripheral [p]: only
    property applications (the activation is one) on [p] itself, nothing at
    all if [ev] is the activation, and not the activation of the interrupt
    controller if [ev] is one of its masks. *)
Definition stays_in_group (p : Obj) (ev : Event) (post : list Event) : bool :=
  forallb (fun ev' => is_property_call ev'
                      && match subject ev' with
                         | Some q => if Obj_eq_dec q p then true else false
                         | None => false
                         end) post
  && (if is_activation_of p ev then
        match post with [] => true | _ => false end
      else true)
  && (if Obj_eq_dec p vic then negb (existsb (is_activation_of vic) post)
      else true).

(** Every failed call of [l] on one of the five peripherals keeps what
    follows it in its group, and the run is not a success. *)
Fixpoint failures_contained (env : Env) (success : bool) (l : list Event) : bool :=
  match l with
  | [] => true
  | ev :: post =>
      match result_of env ev, subject ev with
      | Some _, Some p =>
          if existsb (fun q => if Obj_eq_dec q p then true else false)
                     activation_order
          then negb success && stays_in_group p ev post
          else true
      | _, _ => true
      end
      && failures_contained env success post
  end.

(** [env] with another [serial_hds[0]]. *)
Definition with_serial (env : Env) (hds : option CharDriverState) : Env :=
  {| AST2400_SRAM_BASE := AST2400_SRAM_BASE env;
     AST2400_SRAM_SIZE := AST2400_SRAM_SIZE env;
     ARM_CPU_IRQ := ARM_CPU_IRQ env;
     ARM_CPU_FIQ := ARM_CPU_FIQ env;
     serial_hds0 := hds;
     nd_table0 := nd_table0 env;
     set_int_result := set_int_result env;
     set_bool_result := set_bool_result env;
     error_set_again := error_set_again env |}.

(** What the caller finds in [*errp], if the run returns. *)
Definition errp_of (r : Result) : option (option Error) :=
  match r with
  | Finished e _ => Some e
  | Crashed _ => None
  end.

(** The UART that [serial_mm_init] creates for backend [chr]. *)
Definition uart5_call (chr : CharDriverState) : Event :=
  E_serial_mm_init iomem 0x00184000 2 (qdev_get_gpio_in vic 10) 38400 chr
                   DEVICE_LITTLE_ENDIAN.

(** ** Concrete environments *)

(** No collaborator fails; [hds] is [serial_hds[0]] and [nd] is
    [nd_table[0]]. *)
Definition quiet_env (hds : option CharDriverState) (nd : NICInfo) : Env :=
  {| AST2400_SRAM_BASE := 0x1E720000; AST2400_SRAM_SIZE := 0x8000;
     ARM_CPU_IRQ := 0; ARM_CPU_FIQ := 1;
     serial_hds0 := hds;
     nd_table0 := nd;
     set_int_result := fun _ _ _ => None;
     set_bool_result := fun _ _ _ => None;
     error_set_again := fun _ _ => None |}.

Definition no_nic : NICInfo := {| nd_model := None; nd_netdev := None |}.
Definition user_nic : NICInfo :=
  {| nd_model := Some "cadence_gem"; nd_netdev := Some "net0" |}.

(** Exactly the application of property [name] on [o] fails. *)
Definition failing_int_env (hds : option CharDriverState) (o : Obj)
    (name : string) (e : Error) : Env :=
  {| AST2400_SRAM_BASE := 0x1E720000; AST2400_SRAM_SIZE := 0x8000;
     ARM_CPU_IRQ := 0; ARM_CPU_FIQ := 1;
     serial_hds0 := hds;
     nd_table0 := user_nic;
     set_int_result := fun o' _ name' =>
       if Obj_eq_dec o' o then if string_dec name' name then Some e else None
       else None;
     set_bool_result := fun _ _ _ => None;
     error_set_again := fun _ _ => None |}.

(** Exactly the activation of [p] fails. *)
Definition failing_activation_env (hds : option CharDriverState) (p : Obj)
    (e : Error) : Env :=
  {| AST2400_SRAM_BASE := 0x1E720000; AST2400_SRAM_SIZE := 0x8000;
     ARM_CPU_IRQ := 0; ARM_CPU_FIQ := 1;
     serial_hds0 := hds;
     nd_table0 := user_nic;
     set_int_result := fun _ _ _ => None;
     set_bool_result := fun o' _ _ => if Obj_eq_dec o' p then Some e else None;
     error_set_again := fun _ _ => None |}.

(** ** Order of the calls within a run *)

Definition is_cpu (d : Obj) : bool :=
  match d with
  | cpu => true
  | _ => false
  end.

(** [d] is one of the five sysbus peripherals. *)
Definition is_peripheral (d : Obj) : bool :=
  existsb (fun q => if Obj_eq_dec q d then true else false) activation_order.

Definition failed (env : Env) (ev : Event) : bool :=
  match result_of env ev with
  | Some _ => true
  | None => false
  end.

(** The activation of [d] is among [pre] and reported no error. *)
Definition activated_in (env : Env) (pre : list Event) (d : Obj) : bool :=
  existsb (is_activation_of d) pre && negb (failed env (activation d)).

Definition creates_region (mr : MemoryRegion) (ev : Event) : bool :=
  match ev with
  | E_memory_region_allocate_system_memory mr' _ _ =>
      if MemoryRegion_eq_dec mr' mr then true else false
  | E_memory_region_init_io mr' _ _ _ =>
      if MemoryRegion_eq_dec mr' mr then true else false
  | _ => false
  end.

Definition inserts_region (mr : MemoryRegion) (ev : Event) : bool :=
  match ev with
  | E_memory_region_add_subregion _ _ mr' =>
      if MemoryRegion_eq_dec mr' mr then true else false
  | E_memory_region_add_subregion_overlap _ _ mr' _ =>
      if MemoryRegion_eq_dec mr' mr then true else false
  | _ => false
  end.

Definition creates_slave (d : Obj) (ev : Event) : bool :=
  match ev with
  | E_i2c_create_slave bus name addr =>
      if Obj_eq_dec (i2c_slave bus name addr) d then true else false
  | _ => false
  end.

(** What must have happened before call [ev], given the calls [pre] made
    before it: a device is mapped, wired or given slaves only once its
    activation has succeeded; a line of a device other than the CPU is used
    only once that device's activation has succeeded; a region is inserted
    only once created, and a region is put inside another only once that one
    is inserted; properties are applied to a sysbus device only before its
    activation, and to a slave only once it is created; no device is
    activated twice. *)
Definition precedes_ok (env : Env) (pre : list Event) (ev : Event) : bool :=
  match ev with
  | E_sysbus_mmio_map d _ _ => activated_in env pre d
  | E_sysbus_connect_irq d _ (qdev_get_gpio_in t _) =>
      activated_in env pre d && (is_cpu t || activated_in env pre t)
  | E_serial_mm_init c _ _ (qdev_get_gpio_in t _) _ _ _ =>
      (is_cpu t || activated_in env pre t) && existsb (inserts_region c) pre
  | E_i2c_create_slave (aspeed_i2c_get_bus d _) _ _ => activated_in env pre d
  | E_object_property_set_int o _ _ =>
      match o with
      | i2c_slave _ _ _ => existsb (creates_slave o) pre
      | _ => negb (existsb (is_activation_of o) pre)
      end
  | E_object_property_set_bool o _ _ => negb (existsb (is_activation_of o) pre)
  | E_qdev_set_nic_properties d _ => negb (existsb (is_activation_of d) pre)
  | E_memory_region_add_subregion _ _ mr => existsb (creates_region mr) pre
  | E_memory_region_add_subregion_overlap _ _ mr _ =>
      existsb (creates_region mr) pre
  | _ => true
  end.

(** [precedes_ok] at every call of [l], which follows the calls [pre]. *)
Fixpoint ordered_from (env : Env) (pre l : list Event) : bool :=
  match l with
  | [] => true
  | ev :: l' => precedes_ok env pre ev && ordered_from env (pre ++ [ev]) l'
  end.

(** The calls after which [ast2400_realize] looks at [err]: the application
    of the third mask and the five activations. *)
Definition is_check_point (ev : Event) : bool :=
  match ev with
  | E_object_property_set_int o v name =>
      (if Obj_eq_dec o vic then true else false)
      && (v =? 0x00005F07FFF8FFFF)
      && (if string_dec name "event" then true else false)
  | E_object_property_set_bool o true name =>
      is_peripheral o && (if string_dec name "realized" then true else false)
  | _ => false
  end.

(** A run that returns an error ends at a check point and holds a failed
    call on one of the five peripherals. *)
Definition error_exit_ok (env : Env) (r : Result) : bool :=
  match r with
  | Finished (Some _) tr =>
      match rev tr with
      | ev :: _ => is_check_point ev
      | [] => false
      end
      && existsb (fun ev => failed env ev
                            && match subject ev with
                               | Some p => is_peripheral p
                               | None => false
                               end) tr
  | _ => true
  end.

(** The four calls that set up the SRAM and the IO window. *)
Definition memory_setup (env : Env) : list Event :=
  [ E_memory_region_allocate_system_memory sram "ast2400.sram"
      (AST2400_SRAM_SIZE env);
    E_memory_region_add_subregion get_system_memory (AST2400_SRAM_BASE env) sram;
    E_memory_region_init_io iomem ast2400_io_ops_id "ast2400.io"
      AST2400_IOMEM_SIZE;
    E_memory_region_add_subregion_overlap get_system_memory AST2400_IOMEM_BASE
      iomem (-1) ].

(** The peripherals activated before [p]. *)
Fixpoint activated_before (p : Obj) (l : list Obj) : list Obj :=
  match l with
  | [] => []
  | x :: l' => if Obj_eq_dec x p then [] else x :: activated_before p l'
  end.

(** The region that [sysbus_mmio_map] inserts for peripheral [q] at [base]. *)
Definition peripheral_subregion (q : Obj) (base : Z) : Subregion :=
  {| sub_container := get_system_memory; sub_offset := base;
     sub_region := sysbus_mmio q 0; sub_priority := 0 |}.

(** The region that [serial_mm_init] inserts for backend [chr]. *)
Definition uart_subregion (chr : CharDriverState) : Subregion :=
  {| sub_container := iomem; sub_offset := AST2400_UART_5_BASE;
     sub_region := serial_io chr; sub_priority := 0 |}.

(** The inputs of the interrupt controller that a trace wires. *)
Definition vic_inputs (tr : list Event) : list Z :=
  flat_map (fun w => match snd w with
                     | qdev_get_gpio_in t n =>
                         if Obj_eq_dec t vic then [n] else []
                     end)
           (irq_wiring tr).

(** The mask with exactly the bits of [l] set. *)
Definition mask_of (l : list Z) : Z :=
  fold_right (fun i acc => Z.lor (Z.shiftl 1 i) acc) 0 l.

(** The integer properties a trace applies, in call order. *)
Definition int_properties (tr : list Event) : list (Obj * string * Z) :=
  flat_map (fun ev => match ev with
                      | E_object_property_set_int o v name => [(o, name, v)]
                      | _ => []
                      end) tr.

(** The inputs of the interrupt controller that the outputs of the timer
    block are wired to. *)
Definition timer_inputs (tr : list Event) : list Z :=
  map (fun w => match snd w with qdev_get_gpio_in _ n => n end)
      (wires_from tr timerctrl).

(** Two environments with the same constants and the same backends: they
    differ at most in what the collaborators report. *)
Definition same_inputs (env env' : Env) : Prop :=
  AST2400_SRAM_BASE env = AST2400_SRAM_BASE env'
  /\ AST2400_SRAM_SIZE env = AST2400_SRAM_SIZE env'
  /\ ARM_CPU_IRQ env = ARM_CPU_IRQ env'
  /\ ARM_CPU_FIQ env = ARM_CPU_FIQ env'
  /\ serial_hds0 env = serial_hds0 env'
  /\ nd_table0 env = nd_table0 env'.

(** ** Sequences of accesses to a region *)

Inductive Access : Type :=
| Read (offset size : Z)
| Write (offset value size : Z).

(** One access through the handlers of a region: a read answers with a
    value, a write with nothing. *)
Definition perform {S} (ops : MemoryRegionOps S) (a : Access) : IO S (option Z) :=
  fun w =>
    match a with
    | Read offset size =>
        let (v, w') := read ops offset size w in (Some v, w')
    | Write offset value size =>
        let (_, w') := write ops offset value size w in (None, w')
    end.

Fixpoint perform_all {S} (ops : MemoryRegionOps S) (l : list Access)
  : IO S (list (option Z)) :=
  fun w =>
    match l with
    | [] => ([], w)
    | a :: l' =>
        let (r, w1) := perform ops a w in
        let (rs, w2) := perform_all ops l' w1 in
        (r :: rs, w2)
    end.

(** What the catch-all handlers answer to an access and what they log. *)
Definition catch_all_answer (a : Access) : option Z :=
  match a with
  | Read _ _ => Some 0
  | Write _ _ _ => None
  end.

Definition catch_all_record (a : Access) : LogRecord :=
  match a with
  | Read offset size =>
      {| log_mask := LOG_UNIMP; log_func := "ast2400_io_read";
         log_offset := offset; log_value := None; log_size := size |}
  | Write offset value size =>
      {| log_mask := LOG_UNIMP; log_func := "ast2400_io_write";
         log_offset := offset; log_value := Some value; log_size := size |}
  end.

(** ** [ast2400_init] *)

(** QOM type names of the devices; the macros are declared in the headers of
    the devices. *)
Inductive QomType : Type :=
| TYPE_ASPEED_VIC
| TYPE_ASPEED_TIMER
| TYPE_ASPEED_SCU
| TYPE_ASPEED_I2C
| qom_type (t : TypeName).

Inductive BusState : Type :=
| sysbus_get_default.

(** The calls of [ast2400_init]; the size argument of [object_initialize]
    and the [NULL] error argument of [object_property_add_child] are left
    out, and the parent of every child is the SoC object itself. *)
Inductive InitEvent : Type :=
| I_cpu_arm_init (cpu_model : string)
| I_object_initialize (d : Obj) (ty : QomType)
| I_object_property_add_child (name : string) (child : Obj)
| I_qdev_set_parent_bus (d : Obj) (bus : BusState).

(** [ast2400_init] takes no decision: it makes these calls in this order;
    [s->cpu] is the result of the first. *)
Definition ast2400_init : list InitEvent :=
  [ I_cpu_arm_init "arm926";
    I_object_initialize vic TYPE_ASPEED_VIC;
    I_object_property_add_child "vic" vic;
    I_qdev_set_parent_bus vic sysbus_get_default;
    I_object_initialize gem (qom_type TYPE_CADENCE_GEM);
    I_qdev_set_parent_bus gem sysbus_get_default;
    I_object_initialize timerctrl TYPE_ASPEED_TIMER;
    I_object_property_add_child "timerctrl" timerctrl;
    I_qdev_set_parent_bus timerctrl sysbus_get_default;
    I_object_initialize scu TYPE_ASPEED_SCU;
    I_object_property_add_child "scu" scu;
    I_qdev_set_parent_bus scu sysbus_get_default;
    I_object_initialize i2c TYPE_ASPEED_I2C;
    I_object_property_add_child "i2c" i2c;
    I_qdev_set_parent_bus i2c sysbus_get_default ].

(** The devices a call of [ast2400_realize] touches: the one it acts on, the
    one whose input line it uses, the one whose bus it puts a slave on. *)
Definition devices_of (ev : Event) : list Obj :=
  match ev with
  | E_object_property_set_int o _ _ => [o]
  | E_object_property_set_bool o _ _ => [o]
  | E_sysbus_mmio_map d _ _ => [d]
  | E_sysbus_connect_irq d _ (qdev_get_gpio_in t _) => [d; t]
  | E_qdev_set_nic_properties d _ => [d]
  | E_serial_mm_init _ _ _ (qdev_get_gpio_in t _) _ _ _ => [t]
  | E_i2c_create_slave (aspeed_i2c_get_bus d _) _ _ => [d]
  | _ => []
  end.

(** [d] was set up by [ast2400_init]: it is the CPU that [cpu_arm_init]
    returned, or a device that was initialised and put on the default system
    bus. *)
Definition set_up_by_init (d : Obj) : Prop :=
  (d = cpu /\ In (I_cpu_arm_init "arm926") ast2400_init)
  \/ (exists ty, In (I_object_initialize d ty) ast2400_init
                 /\ In (I_qdev_set_parent_bus d sysbus_get_default) ast2400_init).

(** ** The groups of calls between two checks *)

(** The calls of [l] up to and including the first check point. *)
Fixpoint through_check (l : list Event) : list Event :=
  match l with
  | [] => []
  | x :: l' => if is_check_point x then [x] else x :: through_check l'
  end.

(** The groups of fallible calls of [ast2400_realize] that share one look at
    [err], in source order: the three masks, each activation on its own,
    except that of the system-control unit, which shares the look with the
    four presets before it. *)
Definition check_groups : list (list Event) :=
  [ [ E_object_property_set_int vic 0x00001F07FFF8FFFF "sense";
      E_object_property_set_int vic 0x000000F800070000 "dual_edge";
      E_object_property_set_int vic 0x00005F07FFF8FFFF "event" ];
    [ activation vic ];
    [ activation timerctrl ];
    [ activation gem ];
    [ E_object_property_set_int scu 0x19FC3E8B "scu0c";
      E_object_property_set_int scu 0x01000000 "scu88";
      E_object_property_set_int scu 0x000000FF "scu8c";
      E_object_property_set_int scu 0x003FFFF3 "scu9c";
      activation scu ];
    [ activation i2c ] ].

(** The run returned to its caller. *)
Definition returned (r : Result) : bool :=
  match r with
  | Finished _ _ => true
  | Crashed _ => false
  end.

(** For every failed call on a peripheral, at position [i] of a trace of [n]
    calls of which [l] are left: the trace does not go past the end of the
    group of that call in [full], and stops exactly there when the run
    returned. *)
Fixpoint stops_at_group_end (env : Env) (ret : bool) (full : list Event)
         (n i : nat) (l : list Event) : bool :=
  match l with
  | [] => true
  | ev :: l' =>
      (if failed env ev
          && match subject ev with
             | Some p => is_peripheral p
             | None => false
             end
       then
         let stop := (i + List.length (through_check (skipn i full)))%nat in
         (n <=? stop)%nat && (if ret then (n =? stop)%nat else true)
       else true)
      && stops_at_group_end env ret full n (S i) l'
  end.

(** ** The steps as the source lists them *)

Definition vic_calls (env : Env) : list Event :=
  [ E_object_property_set_int vic 0x00001F07FFF8FFFF "sense";
    E_object_property_set_int vic 0x000000F800070000 "dual_edge";
    E_object_property_set_int vic 0x00005F07FFF8FFFF "event";
    E_object_property_set_bool vic true "realized";
    E_sysbus_mmio_map vic 0 0x1E6C0000;
    E_sysbus_connect_irq vic 0 (qdev_get_gpio_in cpu (ARM_CPU_IRQ env));
    E_sysbus_connect_irq vic 1 (qdev_get_gpio_in cpu (ARM_CPU_FIQ env)) ].

Definition timer_calls : list Event :=
  [ E_object_property_set_bool timerctrl true "realized";
    E_sysbus_mmio_map timerctrl 0 0x1E782000;
    E_sysbus_connect_irq timerctrl 0 (qdev_get_gpio_in vic 16);
    E_sysbus_connect_irq timerctrl 1 (qdev_get_gpio_in vic 17);
    E_sysbus_connect_irq timerctrl 2 (qdev_get_gpio_in vic 18);
    E_sysbus_connect_irq timerctrl 3 (qdev_get_gpio_in vic 35);
    E_sysbus_connect_irq timerctrl 4 (qdev_get_gpio_in vic 36);
    E_sysbus_connect_irq timerctrl 5 (qdev_get_gpio_in vic 37);
    E_sysbus_connect_irq timerctrl 6 (qdev_get_gpio_in vic 38);
    E_sysbus_connect_irq timerctrl 7 (qdev_get_gpio_in vic 39) ].

Definition gem_calls (env : Env) : list Event :=
  [ E_qemu_check_nic_model (nd_table0 env) TYPE_CADENCE_GEM;
    E_qdev_set_nic_properties gem (nd_table0 env);
    E_object_property_set_bool gem true "realized";
    E_sysbus_mmio_map gem 0 0x1E680000;
    E_sysbus_connect_irq gem 0 (qdev_get_gpio_in vic 3) ].

Definition scu_calls : list Event :=
  [ E_object_property_set_int scu 0x19FC3E8B "scu0c";
    E_object_property_set_int scu 0x01000000 "scu88";
    E_object_property_set_int scu 0x000000FF "scu8c";
    E_object_property_set_int scu 0x003FFFF3 "scu9c";
    E_object_property_set_bool scu true "realized";
    E_sysbus_mmio_map scu 0 0x1E6E2000 ].

Definition i2c_calls : list Event :=
  [ E_object_property_set_bool i2c true "realized";
    E_sysbus_mmio_map i2c 0 0x1E78A000;
    E_sysbus_connect_irq i2c 0 (qdev_get_gpio_in vic 12) ].

Definition slave_calls : list Event :=
  [ E_i2c_create_slave (aspeed_i2c_get_bus i2c 2) "tmp423" 0x4c;
    E_object_property_set_int
      (i2c_slave (aspeed_i2c_get_bus i2c 2) "tmp423" 0x4c) 31000 "temperature0";
    E_object_property_set_int
      (i2c_slave (aspeed_i2c_get_bus i2c 2) "tmp423" 0x4c) 28000 "temperature1";
    E_object_property_set_int
      (i2c_slave (aspeed_i2c_get_bus i2c 2) "tmp423" 0x4c) 20000 "temperature2";
    E_object_property_set_int
      (i2c_slave (aspeed_i2c_get_bus i2c 2) "tmp423" 0x4c) 110000 "temperature3";
    E_i2c_create_slave (aspeed_i2c_get_bus i2c 0) "ds1338" 0x68 ].

(** Every step of the source but the UART one, written out call by call:
    SRAM and IO window, interrupt controller, timer, MAC, system-control
    unit, two-wire bus controller, slaves. *)
Definition steps_without_uart (env : Env) : list Event :=
  memory_setup env ++ vic_calls env ++ timer_calls ++ gem_calls env
  ++ scu_calls ++ i2c_calls ++ slave_calls.

(** The same with the UART step, which the source has between the
    system-control unit and the two-wire bus controller. *)
Definition steps_with_uart (env : Env) (chr : CharDriverState) : list Event :=
  memory_setup env ++ vic_calls env ++ timer_calls ++ gem_calls env
  ++ scu_calls ++ [uart5_call chr] ++ i2c_calls ++ slave_calls.

(** ** Proof automation

    [ast2400_realize] unfolds to nested matches on the results that the
    environment gives to the fallible calls; [case_head] splits on the call
    that the run reaches next. *)

Ltac head_scrutinee t :=
  lazymatch t with
  | context [match ?x with _ => _ end] =>
      lazymatch x with
      | context [match _ with _ => _ end] => head_scrutinee x
      | _ => x
      end
  end.

Ltac case_head :=
  match goal with
  | |- ?G => let x := head_scrutinee G in destruct x eqn:?; cbv beta iota
  end.

Ltac unfold_realize :=
  cbv [compose ast2400_realize bind ret emit report if_err_propagate_return
       for_loop ARRAY_SIZE List.length timer_irqs uart_irqs nth Z.to_nat Z.add
       Pos.to_nat Pos.iter_op Nat.add Pos.add Pos.succ trace err app
       full_trace succeeding trace_of
       memory_region_allocate_system_memory memory_region_add_subregion
       memory_region_init_io memory_region_add_subregion_overlap
       object_property_set_int object_property_set_bool sysbus_mmio_map
       sysbus_connect_irq qemu_check_nic_model qdev_set_nic_properties
       serial_mm_init i2c_create_slave
       AST2400_SRAM_BASE AST2400_SRAM_SIZE ARM_CPU_IRQ ARM_CPU_FIQ
       serial_hds0 nd_table0 set_int_result set_bool_result error_set_again].

(** A run that reports success has made every call of the sequence. *)
Lemma compose_success_trace (env : Env) (tr : list Event) :
  compose env = Finished None tr -> tr = full_trace env.
Proof.
  destruct env as [sb ss irq fiq hds nd fi fb again].
  destruct hds as [chr|]; unfold_realize.
  all: repeat (first [ discriminate | (intros [= <-]; reflexivity) | case_head ]).
Qed.

(** Whatever the collaborators report, the calls made are an initial segment
    of the calls of an undisturbed run. *)
Lemma compose_trace_prefix (env : Env) :
  exists rest, full_trace env = trace_of (compose env) ++ rest.
Proof.
  destruct env as [sb ss irq fiq hds nd fi fb again].
  destruct hds as [chr|]; unfold_realize.
  all: repeat (first [ (eexists; reflexivity) | case_head ]).
Qed.

(** ** The catch-all handlers *)

(** C3: a read of the catch-all region returns 0 for every offset and size
    and adds one record (offset, size) to the log; a write adds one record
    (offset, value, size) and returns nothing; neither touches any other
    state, and both are total. *)
Theorem catch_all_read_zero_write_discarded :
  forall (S : Type) (w : World S) (offset value size : Z),
    read (ops_table ast2400_io_ops_id) offset size w
      = (0, {| guest := guest w;
               log := log w ++ [ {| log_mask := LOG_UNIMP;
                                    log_func := "ast2400_io_read";
                                    log_offset := offset; log_value := None;
                                    log_size := size |} ] |})
    /\ write (ops_table ast2400_io_ops_id) offset value size w
      = (tt, {| guest := guest w;
                log := log w ++ [ {| log_mask := LOG_UNIMP;
                                     log_func := "ast2400_io_write";
                                     log_offset := offset;
                                     log_value := Some value;
                                     log_size := size |} ] |})
    /\ guest (snd (ast2400_io_read offset size w)) = guest w
    /\ guest (snd (ast2400_io_write offset value size w)) = guest w.
Proof.
  intros S w offset value size. repeat split.
Qed.

(** ** Successful composition: wiring *)

Ltac success_trace H :=
  apply compose_success_trace in H; subst;
  match goal with
  | env : Env |- _ =>
      destruct env as [sb ss irq fiq hds nd fi fb again];
      destruct hds as [chr|]
  end.

(** C2: after a successful composition the wires that leave the timer block
    are exactly eight, one per timer output 0..7 in order, and output i goes
    to the interrupt-controller input that the table
    16, 17, 18, 35, 36, 37, 38, 39 gives at index i. *)
Theorem timer_outputs_follow_table (env : Env) (tr : list Event) :
  compose env = Finished None tr ->
  timer_irqs = [16; 17; 18; 35; 36; 37; 38; 39]
  /\ wires_from tr timerctrl =
       [ (sysbus_irq_out timerctrl 0, qdev_get_gpio_in vic 16);
         (sysbus_irq_out timerctrl 1, qdev_get_gpio_in vic 17);
         (sysbus_irq_out timerctrl 2, qdev_get_gpio_in vic 18);
         (sysbus_irq_out timerctrl 3, qdev_get_gpio_in vic 35);
         (sysbus_irq_out timerctrl 4, qdev_get_gpio_in vic 36);
         (sysbus_irq_out timerctrl 5, qdev_get_gpio_in vic 37);
         (sysbus_irq_out timerctrl 6, qdev_get_gpio_in vic 38);
         (sysbus_irq_out timerctrl 7, qdev_get_gpio_in vic 39) ]
  /\ forall i, 0 <= i < 8 ->
       irq_targets tr (sysbus_irq_out timerctrl i)
         = [qdev_get_gpio_in vic (nth (Z.to_nat i) timer_irqs 0)].
Proof.
  intros H. success_trace H.
  all: split; [reflexivity|]; split; [vm_compute; reflexivity|].
  all: intros i Hi;
    assert (Hcases : i = 0 \/ i = 1 \/ i = 2 \/ i = 3 \/ i = 4 \/ i = 5
                     \/ i = 6 \/ i = 7) by lia;
    repeat (destruct Hcases as [-> | Hcases]); subst; vm_compute; reflexivity.
Qed.

Lemma timer_outputs_follow_table_witness :
  compose (quiet_env (Some "serial0") user_nic)
    = Finished None (full_trace (quiet_env (Some "serial0") user_nic))
  /\ irq_targets (full_trace (quiet_env (Some "serial0") user_nic))
                 (sysbus_irq_out timerctrl 3)
     = [qdev_get_gpio_in vic 35].
Proof.
  assert (H : compose (quiet_env (Some "serial0") user_nic)
              = Finished None (full_trace (quiet_env (Some "serial0") user_nic)))
    by (vm_compute; reflexivity).
  split; [exact H|].
  destruct (timer_outputs_follow_table _ _ H) as (_ & _ & Hi).
  apply (Hi 3). lia.
Defined.

(** C9: in every successful composition the calls on the interrupt
    controller are, in this order and with nothing on it before or after:
    the three masks sense = 0x00001F07FFF8FFFF, dual_edge =
    0x000000F800070000 and event = 0x00005F07FFF8FFFF, then its activation,
    then its mapping at 0x1E6C0000, then the connection of its output 0 to
    the CPU's IRQ input and of its output 1 to the CPU's FIQ input. *)
Theorem vic_configured_activated_wired (env : Env) (tr : list Event) :
  compose env = Finished None tr ->
  exists pre post,
    tr = pre
         ++ [ E_object_property_set_int vic 0x00001F07FFF8FFFF "sense";
              E_object_property_set_int vic 0x000000F800070000 "dual_edge";
              E_object_property_set_int vic 0x00005F07FFF8FFFF "event";
              activation vic;
              E_sysbus_mmio_map vic 0 0x1E6C0000;
              E_sysbus_connect_irq vic 0 (qdev_get_gpio_in cpu (ARM_CPU_IRQ env));
              E_sysbus_connect_irq vic 1 (qdev_get_gpio_in cpu (ARM_CPU_FIQ env)) ]
         ++ post
    /\ Forall (fun ev => subject ev <> Some vic) (pre ++ post)
    /\ wires_from tr vic =
         [ (sysbus_irq_out vic 0, qdev_get_gpio_in cpu (ARM_CPU_IRQ env));
           (sysbus_irq_out vic 1, qdev_get_gpio_in cpu (ARM_CPU_FIQ env)) ].
Proof.
  intros H. success_trace H.
  all: match goal with
       | |- context [full_trace ?E] =>
           exists (firstn 4 (full_trace E)), (skipn 11 (full_trace E))
       end.
  all: split; [reflexivity|]; split; [|vm_compute; reflexivity].
  all: cbv [full_trace]; unfold_realize; cbv [firstn skipn app].
  all: repeat constructor; cbv [subject]; discriminate.
Qed.

Lemma vic_configured_activated_wired_witness :
  compose (quiet_env None no_nic)
    = Finished None (full_trace (quiet_env None no_nic))
  /\ wires_from (full_trace (quiet_env None no_nic)) vic =
       [ (sysbus_irq_out vic 0, qdev_get_gpio_in cpu 0);
         (sysbus_irq_out vic 1, qdev_get_gpio_in cpu 1) ].
Proof.
  assert (H : compose (quiet_env None no_nic)
              = Finished None (full_trace (quiet_env None no_nic)))
    by (vm_compute; reflexivity).
  split; [exact H|].
  destruct (vic_configured_activated_wired _ _ H) as (pre & post & _ & _ & Hw).
  exact Hw.
Defined.

(** C10: in every successful composition the only wire that leaves the
    network MAC goes from its output 0 to interrupt-controller input 3, the
    only wire that leaves the two-wire bus controller goes from its output 0
    to input 12, and, when a serial backend is present, the interrupt of the
    UART goes to input 10 (entry 4 of [uart_irqs]); none of the three
    numbers depends on the environment. *)
Theorem fixed_interrupt_inputs (env : Env) (tr : list Event) :
  compose env = Finished None tr ->
  wires_from tr gem = [ (sysbus_irq_out gem 0, qdev_get_gpio_in vic 3) ]
  /\ wires_from tr i2c = [ (sysbus_irq_out i2c 0, qdev_get_gpio_in vic 12) ]
  /\ (forall chr, serial_hds0 env = Some chr ->
        flat_map wire_of (uarts tr)
          = [ (serial_irq_out chr, qdev_get_gpio_in vic 10) ]
        /\ irq_targets tr (serial_irq_out chr) = [qdev_get_gpio_in vic 10])
  /\ CDNS_GEM_IRQ = 3 /\ nth 4 uart_irqs 0 = 10.
Proof.
  intros H. success_trace H.
  all: split; [vm_compute; reflexivity|]; split; [vm_compute; reflexivity|].
  all: split; [|split; reflexivity].
  all: intros chr' [= <-].
  split; [reflexivity|].
  cbv [full_trace]; unfold_realize.
  cbv [irq_targets irq_wiring flat_map wire_of app filter fst snd map].
  repeat match goal with
         | |- context [IrqSource_eq_dec ?a ?b] =>
             destruct (IrqSource_eq_dec a b); try discriminate; try congruence
         end.
Qed.

Lemma fixed_interrupt_inputs_witness :
  compose (quiet_env (Some "serial0") user_nic)
    = Finished None (full_trace (quiet_env (Some "serial0") user_nic))
  /\ wires_from (full_trace (quiet_env (Some "serial0") user_nic)) gem
     = [ (sysbus_irq_out gem 0, qdev_get_gpio_in vic 3) ].
Proof.
  assert (H : compose (quiet_env (Some "serial0") user_nic)
              = Finished None (full_trace (quiet_env (Some "serial0") user_nic)))
    by (vm_compute; reflexivity).
  split; [exact H|].
  destruct (fixed_interrupt_inputs _ _ H) as (Hg & _).
  exact Hg.
Defined.

(** ** Failure of an activation *)

Ltac in_list := repeat (first [left; reflexivity | right]).

Ltac known_head Hfail Hprev :=
  match goal with
  | |- ?G =>
      let x := head_scrutinee G in
      first
        [ rewrite Hfail
        | lazymatch x with
          | ?f ?o ?v ?n =>
              let H := fresh in
              first
                [ assert (H : x = None)
                    by (apply (Hprev (E_object_property_set_int o v n));
                        vm_compute; in_list)
                | assert (H : x = None)
                    by (apply (Hprev (E_object_property_set_bool o v n));
                        vm_compute; in_list) ];
              rewrite H; clear H
          end ]
  end; cbv beta iota.

Lemma activation_failure_result (env : Env) (p : Obj) (e : Error) :
  In p activation_order ->
  result_of env (activation p) = Some e ->
  (forall ev, In ev (calls_before p env) -> result_of env ev = None) ->
  compose env = Finished (Some e) (calls_before p env ++ [activation p]).
Proof.
  intros Hp Hfail Hprev.
  destruct env as [sb ss irq fiq hds nd fi fb again].
  cbv [result_of activation set_bool_result] in Hfail.
  cbv [activation_order In] in Hp.
  destruct hds as [chr|];
    decompose [or] Hp; clear Hp; subst; try contradiction.
  all: unfold_realize.
  all: repeat known_head Hfail Hprev.
  all: vm_compute; reflexivity.
Qed.

(** C1: when the activation of one of the five peripherals reports an error
    and no call before it did, composition returns that error, the
    activation is the last call made, and nothing that the sequence declares
    after it runs: the peripheral is neither mapped nor wired, no later
    peripheral is configured, activated, mapped or wired, no slave is
    created, and the UART (unless it comes before the failing activation) is
    not instantiated. *)
Theorem activation_failure_aborts (env : Env) (p : Obj) (e : Error) :
  In p activation_order ->
  result_of env (activation p) = Some e ->
  (forall ev, In ev (calls_before p env) -> result_of env ev = None) ->
  exists tr rest,
    compose env = Finished (Some e) tr
    /\ tr = calls_before p env ++ [activation p]
    /\ full_trace env = tr ++ rest
    /\ rest <> []
    /\ Forall (fun ev => forall n a irq,
                 ev <> E_sysbus_mmio_map p n a
                 /\ ev <> E_sysbus_connect_irq p n irq) tr
    /\ (forall q, In q (activated_after p activation_order) ->
          Forall (fun ev => subject ev <> Some q) tr)
    /\ (p <> i2c -> uarts tr = [])
    /\ Forall (fun ev => is_slave_creation ev = false) tr.
Proof.
  intros Hp Hfail Hprev.
  pose proof (activation_failure_result env p e Hp Hfail Hprev) as Hrun.
  exists (calls_before p env ++ [activation p]).
  exists (skipn (List.length (calls_before p env ++ [activation p]))
                (full_trace env)).
  split; [exact Hrun|]. split; [reflexivity|].
  clear Hrun Hfail Hprev.
  destruct env as [sb ss irq fiq hds nd fi fb again].
  cbv [activation_order In] in Hp.
  destruct hds as [chr|];
    decompose [or] Hp; clear Hp; subst; try contradiction.
  all: split; [vm_compute; reflexivity|].
  all: split; [vm_compute; discriminate|].
  all: split; [vm_compute; repeat constructor; discriminate|].
  all: split;
    [ intros q Hq; vm_compute in Hq; decompose [or] Hq; subst;
      try contradiction; vm_compute; repeat constructor; discriminate |].
  all: split; [ intros Hne; try (vm_compute; reflexivity); congruence |].
  all: vm_compute; repeat constructor.
Qed.

Lemma activation_failure_aborts_witness :
  In timerctrl activation_order
  /\ result_of (failing_activation_env (Some "serial0") timerctrl "no timer")
               (activation timerctrl) = Some "no timer"
  /\ exists tr rest,
       compose (failing_activation_env (Some "serial0") timerctrl "no timer")
         = Finished (Some "no timer") tr
       /\ tr = calls_before timerctrl
                 (failing_activation_env (Some "serial0") timerctrl "no timer")
               ++ [activation timerctrl]
       /\ full_trace (failing_activation_env (Some "serial0") timerctrl "no timer")
          = tr ++ rest
       /\ rest <> []
       /\ Forall (fun ev => forall n a irq,
                    ev <> E_sysbus_mmio_map timerctrl n a
                    /\ ev <> E_sysbus_connect_irq timerctrl n irq) tr
       /\ (forall q, In q (activated_after timerctrl activation_order) ->
             Forall (fun ev => subject ev <> Some q) tr)
       /\ (timerctrl <> i2c -> uarts tr = [])
       /\ Forall (fun ev => is_slave_creation ev = false) tr.
Proof.
  assert (Hp : In timerctrl activation_order) by (vm_compute; in_list).
  split; [exact Hp|]. split; [vm_compute; reflexivity|].
  apply (activation_failure_aborts
           (failing_activation_env (Some "serial0") timerctrl "no timer")
           timerctrl "no timer" Hp).
  - vm_compute; reflexivity.
  - intros ev Hev. vm_compute in Hev.
    decompose [or] Hev; subst; try contradiction; vm_compute; reflexivity.
Defined.

(** ** Checks of the error cell *)

Ltac use_results :=
  repeat match goal with
         | H : ?x = _ |- context [?x] => rewrite H
         end.

Lemma compose_failures_contained (env : Env) :
  failures_contained env (is_success (compose env)) (trace_of (compose env))
  = true.
Proof.
  destruct env as [sb ss irq fiq hds nd fi fb again].
  destruct hds as [chr|]; unfold_realize.
  all: repeat case_head.
  all: vm_compute; use_results; vm_compute; reflexivity.
Qed.


Lemma failures_contained_sound (env : Env) (success : bool) (l : list Event) :
  failures_contained env success l = true ->
  forall pre ev post p,
    l = pre ++ ev :: post ->
    result_of env ev <> None ->
    In p activation_order ->
    subject ev = Some p ->
    success = false /\ stays_in_group p ev post = true.
Proof.
  intros Hc pre. revert l Hc.
  induction pre as [|x pre IH]; intros l Hc ev post p -> Hres Hp Hs.
  - cbn [app failures_contained] in Hc.
    apply andb_true_iff in Hc. destruct Hc as [Hc _].
    rewrite Hs in Hc.
    destruct (result_of env ev); [|congruence].
    assert (Hin : existsb (fun q => if Obj_eq_dec q p then true else false)
                          activation_order = true).
    { apply existsb_exists. exists p. split; [exact Hp|].
      destruct (Obj_eq_dec p p); congruence. }
    rewrite Hin in Hc. apply andb_true_iff in Hc. destruct Hc as [Hs' Hg].
    split; [destruct success; [discriminate|reflexivity] | exact Hg].
  - cbn [app failures_contained] in Hc.
    apply andb_true_iff in Hc. destruct Hc as [_ Hc].
    exact (IH _ Hc ev post p eq_refl Hres Hp Hs).
Qed.

Lemma stays_in_group_spec (p : Obj) (ev : Event) (post : list Event) :
  stays_in_group p ev post = true ->
  Forall (fun ev' => is_property_call ev' = true /\ subject ev' = Some p) post
  /\ (ev = activation p -> post = [])
  /\ (p = vic -> ~ In (activation vic) post).
Proof.
  unfold stays_in_group. intros H.
  apply andb_true_iff in H. destruct H as [H Hv].
  apply andb_true_iff in H. destruct H as [Hall Hact].
  split; [|split].
  - apply Forall_forall. intros ev' Hin.
    rewrite forallb_forall in Hall. specialize (Hall ev' Hin).
    apply andb_true_iff in Hall. destruct Hall as [Hpc Hsub].
    split; [exact Hpc|].
    destruct (subject ev') as [q|]; [|discriminate].
    destruct (Obj_eq_dec q p); [congruence|discriminate].
  - intros ->. unfold activation, is_activation_of in Hact.
    destruct (Obj_eq_dec p p); [|congruence].
    cbn in Hact. destruct post; [reflexivity|discriminate].
  - intros -> Hin.
    destruct (Obj_eq_dec vic vic); [|congruence].
    apply negb_true_iff in Hv.
    assert (Hex : existsb (is_activation_of vic) post = true).
    { apply existsb_exists. exists (activation vic). split; [exact Hin|].
      reflexivity. }
    congruence.
Qed.

(** The sensor presets are the one group that no check follows: a failure
    there is not reported by the composition. *)
Example temperature_failure_unreported :
  let tmp423 := i2c_slave (aspeed_i2c_get_bus i2c 2) "tmp423" 0x4c in
  let env := failing_int_env None tmp423 "temperature0" "bad reading" in
  result_of env (E_object_property_set_int tmp423 31000 "temperature0")
    = Some "bad reading"
  /\ compose env = Finished None (full_trace env).
Proof. split; vm_compute; reflexivity. Qed.

(** C5, as stated, fails: when the application of the "sense" mask reports
    an error, the two other masks are still applied before the error cell is
    looked at. *)
Lemma mask_failure_not_checked_immediately :
  result_of (failing_int_env None vic "sense" "bad mask")
            (E_object_property_set_int vic 0x00001F07FFF8FFFF "sense")
    = Some "bad mask"
  /\ compose (failing_int_env None vic "sense" "bad mask")
     = Finished (Some "bad mask")
         [ E_memory_region_allocate_system_memory sram "ast2400.sram" 0x8000;
           E_memory_region_add_subregion get_system_memory 0x1E720000 sram;
           E_memory_region_init_io iomem ast2400_io_ops_id "ast2400.io"
                                   0x00200000;
           E_memory_region_add_subregion_overlap get_system_memory 0x1E600000
                                                 iomem (-1);
           E_object_property_set_int vic 0x00001F07FFF8FFFF "sense";
           E_object_property_set_int vic 0x000000F800070000 "dual_edge";
           E_object_property_set_int vic 0x00005F07FFF8FFFF "event" ]
  /\ ~ checked_immediately (failing_int_env None vic "sense" "bad mask").
Proof.
  split; [vm_compute; reflexivity|].
  split; [vm_compute; reflexivity|].
  intros H.
  specialize (H [ E_memory_region_allocate_system_memory sram "ast2400.sram" 0x8000;
                  E_memory_region_add_subregion get_system_memory 0x1E720000 sram;
                  E_memory_region_init_io iomem ast2400_io_ops_id "ast2400.io"
                                          0x00200000;
                  E_memory_region_add_subregion_overlap get_system_memory
                                                        0x1E600000 iomem (-1) ]
                (E_object_property_set_int vic 0x00001F07FFF8FFFF "sense")
                [ E_object_property_set_int vic 0x000000F800070000 "dual_edge";
                  E_object_property_set_int vic 0x00005F07FFF8FFFF "event" ]).
  assert (Hpost : [ E_object_property_set_int vic 0x000000F800070000 "dual_edge";
                    E_object_property_set_int vic 0x00005F07FFF8FFFF "event" ]
                  = []).
  { apply H; [vm_compute; reflexivity | vm_compute; discriminate]. }
  discriminate Hpost.
Qed.

(** Every run stops at the end of the group of its failed calls. *)
Lemma compose_stops_at_group_end (env : Env) :
  stops_at_group_end env (returned (compose env)) (full_trace env)
    (List.length (trace_of (compose env))) 0 (trace_of (compose env)) = true.
Proof.
  destruct env as [sb ss irq fiq hds nd fi fb again].
  destruct hds as [chr|]; unfold_realize.
  all: repeat case_head.
  all: vm_compute; use_results; vm_compute; reflexivity.
Qed.

Lemma stops_at_group_end_sound (env : Env) (ret : bool) (full : list Event)
      (n : nat) (l : list Event) :
  forall i pre ev post p,
    stops_at_group_end env ret full n i l = true ->
    l = pre ++ ev :: post ->
    result_of env ev <> None ->
    subject ev = Some p ->
    In p activation_order ->
    let stop := (i + List.length pre
                 + List.length (through_check (skipn (i + List.length pre) full)))%nat in
    (n <= stop)%nat /\ (ret = true -> n = stop).
Proof.
  induction l as [|x l IH]; intros i pre ev post p Hc Hl Hres Hs Hp.
  - destruct pre; discriminate Hl.
  - cbn [stops_at_group_end] in Hc. apply andb_true_iff in Hc.
    destruct Hc as [Hx Hrest].
    destruct pre as [|y pre]; cbn [app] in Hl; injection Hl as <- ->.
    + cbn [List.length]. rewrite !Nat.add_0_r.
      unfold failed in Hx. rewrite Hs in Hx.
      destruct (result_of env x); [|congruence].
      assert (Hper : is_peripheral p = true).
      { cbv [activation_order In] in Hp.
        decompose [or] Hp; try contradiction; subst; vm_compute; reflexivity. }
      rewrite Hper in Hx. cbn [andb] in Hx.
      apply andb_true_iff in Hx. destruct Hx as [Hle Heq].
      split; [apply Nat.leb_le; exact Hle|].
      intros ->. apply Nat.eqb_eq. exact Heq.
    + cbn [List.length].
      replace (i + S (List.length pre))%nat with (S i + List.length pre)%nat by lia.
      exact (IH (S i) pre ev post p Hrest eq_refl Hres Hs Hp).
Qed.

Lemma through_check_prefix (l : list Event) :
  exists r, l = through_check l ++ r.
Proof.
  induction l as [|x l [r IH]].
  - exists []. reflexivity.
  - cbn [through_check]. destruct (is_check_point x).
    + exists l. reflexivity.
    + exists r. cbn [app]. rewrite <- IH. reflexivity.
Qed.

Lemma shorter_prefix {A} (a b r1 r2 : list A) :
  a ++ r1 = b ++ r2 -> (List.length a <= List.length b)%nat ->
  exists m, b = a ++ m.
Proof.
  revert b. induction a as [|x a IH]; intros b H Hlen.
  - exists b. reflexivity.
  - destruct b as [|y b]; [cbn in Hlen; lia|].
    cbn [app] in H. injection H as <- H.
    destruct (IH b H ltac:(cbn in Hlen; lia)) as [m ->].
    exists m. reflexivity.
Qed.

Ltac try_group j k :=
  exists (nth j check_groups []), (firstn k (nth j check_groups []));
  split; [vm_compute; solve [in_list] | vm_compute; reflexivity].

Ltac find_group :=
  first [ try_group 0%nat 0%nat | try_group 0%nat 1%nat | try_group 0%nat 2%nat
        | try_group 1%nat 0%nat | try_group 2%nat 0%nat | try_group 3%nat 0%nat
        | try_group 4%nat 0%nat | try_group 4%nat 1%nat | try_group 4%nat 2%nat
        | try_group 4%nat 3%nat | try_group 4%nat 4%nat | try_group 5%nat 0%nat ].

(** Starting from a property application on one of the five peripherals,
    the calls of the undisturbed sequence up to the next check are the end
    of one of the groups of the source. *)
Lemma group_of_call (env : Env) (pre : list Event) (ev : Event)
      (rest : list Event) (p : Obj) :
  full_trace env = pre ++ ev :: rest ->
  is_property_call ev = true ->
  subject ev = Some p ->
  In p activation_order ->
  exists g done, In g check_groups /\ g = done ++ through_check (ev :: rest).
Proof.
  intros Hfull Hcall Hs Hp.
  destruct env as [sb ss irq fiq hds nd fi fb again].
  assert (Hp' : is_peripheral p = true).
  { cbv [activation_order In] in Hp.
    decompose [or] Hp; try contradiction; subst; vm_compute; reflexivity. }
  clear Hp.
  destruct hds as [chr|]; vm_compute in Hfull.
  all: repeat (destruct pre as [|? pre];
               [ injection Hfull as <- <-;
                 first [ discriminate Hcall
                       | injection Hs as <-;
                         first [ discriminate Hp' | find_group ] ]
               | injection Hfull as <- Hfull ]).
  all: destruct pre; discriminate Hfull.
Qed.

Lemma skipn_length_app {A} (a b : list A) : skipn (List.length a) (a ++ b) = b.
Proof. induction a as [|x a IH]; [reflexivity | exact IH]. Qed.

(** C5, amended: the error cell is checked once per group of calls, not
    after every call.  The groups are [check_groups]: the three masks; each
    activation; for the system-control unit its four presets and its
    activation together.  When a call on one of the five peripherals reports
    an error, the composition does not report success; the failed call, the
    calls made after it and the calls not made any more are the end of one
    of these groups, so the calls made after it are property applications
    on the same peripheral; a run that returns has made every remaining call
    of the group and stops right after the last one.  After a failed
    activation no call is made at all, and after a failed mask the interrupt
    controller is not activated. *)
Theorem failures_checked_per_group
    (env : Env) (pre : list Event) (ev : Event) (post : list Event) (p : Obj) :
  trace_of (compose env) = pre ++ ev :: post ->
  result_of env ev <> None ->
  In p activation_order ->
  subject ev = Some p ->
  is_success (compose env) = false
  /\ Forall (fun ev' => is_property_call ev' = true /\ subject ev' = Some p) post
  /\ (ev = activation p -> post = [])
  /\ (p = vic -> ~ In (activation vic) post)
  /\ exists g done more,
       In g check_groups
       /\ g = done ++ ev :: post ++ more
       /\ (returned (compose env) = true -> more = []).
Proof.
  intros Htr Hres Hp Hs.
  destruct (failures_contained_sound env _ _ (compose_failures_contained env)
              pre ev post p Htr Hres Hp Hs) as [Hfail Hgroup].
  split; [exact Hfail|].
  destruct (stays_in_group_spec p ev post Hgroup) as (Hall & Hact & Hvic).
  split; [exact Hall|]. split; [exact Hact|]. split; [exact Hvic|].
  destruct (compose_trace_prefix env) as [rest Hfull].
  rewrite Htr, <- app_assoc in Hfull. cbn [app] in Hfull.
  destruct (stops_at_group_end_sound env _ _ _ _ 0%nat pre ev post p
              (compose_stops_at_group_end env) Htr Hres Hs Hp) as [Hle Heq].
  cbn [Nat.add] in Hle, Heq.
  rewrite Hfull, skipn_length_app in Hle, Heq.
  rewrite Htr, length_app in Hle, Heq.
  destruct (through_check_prefix (ev :: post ++ rest)) as [r Hr].
  destruct (shorter_prefix (ev :: post) (through_check (ev :: post ++ rest))
              rest r Hr ltac:(lia)) as [more Hmore].
  assert (Hcall : is_property_call ev = true).
  { destruct ev; try reflexivity; cbn in Hres; congruence. }
  destruct (group_of_call env pre ev (post ++ rest) p Hfull Hcall Hs Hp)
    as (g & done & Hg & Hgeq).
  exists g, done, more. split; [exact Hg|]. split.
  - rewrite Hgeq, Hmore. reflexivity.
  - intros Hret. specialize (Heq Hret).
    rewrite Hmore, length_app in Heq.
    destruct more; [reflexivity | cbn in Heq; lia].
Qed.

Lemma failures_checked_per_group_witness :
  let env := failing_int_env None scu "scu88" "bad preset" in
  let ev := E_object_property_set_int scu 0x01000000 "scu88" in
  let post := [ E_object_property_set_int scu 0x000000FF "scu8c";
                E_object_property_set_int scu 0x003FFFF3 "scu9c";
                activation scu ] in
  trace_of (compose env) = firstn 27 (full_trace env) ++ ev :: post
  /\ result_of env ev <> None
  /\ In scu activation_order
  /\ subject ev = Some scu
  /\ is_success (compose env) = false
  /\ Forall (fun ev' => is_property_call ev' = true /\ subject ev' = Some scu) post
  /\ (ev = activation scu -> post = [])
  /\ (scu = vic -> ~ In (activation vic) post)
  /\ exists g done more,
       In g check_groups
       /\ g = done ++ ev :: post ++ more
       /\ (returned (compose env) = true -> more = []).
Proof.
  intros env ev post.
  assert (Htr : trace_of (compose env) = firstn 27 (full_trace env) ++ ev :: post)
    by (vm_compute; reflexivity).
  assert (Hres : result_of env ev <> None) by (vm_compute; discriminate).
  assert (Hp : In scu activation_order) by (vm_compute; in_list).
  assert (Hs : subject ev = Some scu) by reflexivity.
  split; [exact Htr|]. split; [exact Hres|]. split; [exact Hp|].
  split; [exact Hs|].
  exact (failures_checked_per_group env _ ev post scu Htr Hres Hp Hs).
Defined.

(** ** The optional backends *)

(** Resolve the head call from the hypothesis that the calls of a list
    report nothing, or split on its result. *)
Ltac known_prev Hprev :=
  match goal with
  | |- ?G =>
      let x := head_scrutinee G in
      lazymatch x with
      | ?f ?o ?v ?n =>
          let H := fresh in
          first
            [ assert (H : x = None)
                by (apply (Hprev (E_object_property_set_int o v n));
                    vm_compute; in_list)
            | assert (H : x = None)
                by (apply (Hprev (E_object_property_set_bool o v n));
                    vm_compute; in_list) ];
          rewrite H; clear H
      end
  end; cbv beta iota.

Ltac known_or_case Hprev := first [ known_prev Hprev | case_head ].

(** When no collaborator reports an error the composition succeeds and makes
    every call of the sequence. *)
Lemma compose_all_succeed (env : Env) :
  (forall ev, In ev (full_trace env) -> result_of env ev = None) ->
  compose env = Finished None (full_trace env).
Proof.
  intros Hprev.
  destruct env as [sb ss irq fiq hds nd fi fb again].
  destruct hds as [chr|]; unfold_realize.
  all: repeat known_prev Hprev.
  all: reflexivity.
Qed.

(** C6, as stated, fails: with no network backend in [nd_table[0]] and no
    collaborator reporting an error, the composition succeeds, having
    activated the MAC. *)
Lemma missing_network_backend_composes :
  nd_netdev (nd_table0 (quiet_env (Some "serial0") no_nic)) = None
  /\ compose (quiet_env (Some "serial0") no_nic)
     = Finished None (full_trace (quiet_env (Some "serial0") no_nic))
  /\ In (activation gem) (full_trace (quiet_env (Some "serial0") no_nic))
  /\ ~ (forall env, nd_netdev (nd_table0 env) = None ->
          exists e tr, compose env = Finished (Some e) tr).
Proof.
  split; [reflexivity|].
  split; [vm_compute; reflexivity|].
  split; [vm_compute; in_list|].
  intros H.
  destruct (H (quiet_env (Some "serial0") no_nic) eq_refl) as (e & tr & Hrun).
  vm_compute in Hrun. discriminate Hrun.
Qed.

(** C6, amended: the network step does not look at whether [nd_table[0]] has
    a backend and is never skipped.  When no earlier call has reported an
    error, the composition checks the NIC model, binds [nd_table[0]] to the
    MAC and attempts its activation; it returns an error at this step
    exactly when that activation reports one, and it is that error;
    otherwise it goes on to map the MAC and to wire its interrupt. *)
Theorem network_step_never_skipped (env : Env) :
  (forall ev, In ev (calls_before gem env) -> result_of env ev = None) ->
  (exists pre post,
      calls_before gem env
        = pre ++ [ E_qemu_check_nic_model (nd_table0 env) TYPE_CADENCE_GEM;
                   E_qdev_set_nic_properties gem (nd_table0 env) ]
      /\ trace_of (compose env) = calls_before gem env ++ activation gem :: post)
  /\ (forall e, result_of env (activation gem) = Some e ->
        compose env = Finished (Some e) (calls_before gem env ++ [activation gem]))
  /\ (result_of env (activation gem) = None ->
        In (E_sysbus_mmio_map gem 0 CDNS_GEM_ADDR) (trace_of (compose env))
        /\ In (E_sysbus_connect_irq gem 0 (qdev_get_gpio_in vic CDNS_GEM_IRQ))
              (trace_of (compose env))).
Proof.
  intros Hprev. split; [|split].
  - destruct env as [sb ss irq fiq hds nd fi fb again].
    destruct hds as [chr|].
    all: match goal with
         | |- context [calls_before gem ?E] =>
             assert (Hpost : exists post,
                        trace_of (compose E)
                        = calls_before gem E ++ activation gem :: post);
             [ vm_compute; repeat known_or_case Hprev; eexists; reflexivity
             | destruct Hpost as [post Hpost];
               exists (firstn 21 (calls_before gem E)), post;
               split; [vm_compute; reflexivity | exact Hpost] ]
         end.
  - intros e He. apply activation_failure_result; [vm_compute; in_list | exact He | exact Hprev].
  - intros Hact.
    destruct env as [sb ss irq fiq hds nd fi fb again].
    cbv [result_of activation set_bool_result] in Hact.
    destruct hds as [chr|]; unfold_realize.
    all: repeat (first [ rewrite Hact; cbv beta iota | known_or_case Hprev ]).
    all: split; vm_compute; in_list.
Qed.

Lemma network_step_never_skipped_witness :
  nd_netdev (nd_table0 (quiet_env None no_nic)) = None
  /\ In (E_sysbus_mmio_map gem 0 CDNS_GEM_ADDR)
        (trace_of (compose (quiet_env None no_nic))).
Proof.
  split; [reflexivity|].
  assert (Hprev : forall ev, In ev (calls_before gem (quiet_env None no_nic)) ->
                        result_of (quiet_env None no_nic) ev = None).
  { intros ev Hev. destruct ev; reflexivity. }
  destruct (network_step_never_skipped (quiet_env None no_nic) Hprev)
    as (_ & _ & Hgo).
  exact (proj1 (Hgo eq_refl)).
Defined.

(** C7: when a serial backend is supplied and no call before the UART step
    reports an error, the composition instantiates exactly one UART: inside
    the catch-all IO region, at offset 0x00184000 (which lies within the
    window), with stride argument 2 (16 bits), baud base 38400, the supplied
    backend, and its interrupt on interrupt-controller input 10; the region
    it adds is the only one inside the IO region. *)
Theorem uart_instantiated_once (env : Env) (chr : CharDriverState) :
  serial_hds0 env = Some chr ->
  (forall ev, In ev (before is_uart (full_trace env)) -> result_of env ev = None) ->
  uarts (trace_of (compose env)) = [uart5_call chr]
  /\ filter (fun m => if MemoryRegion_eq_dec (sub_container m) iomem
                      then true else false)
            (address_space (trace_of (compose env)))
     = [ {| sub_container := iomem; sub_offset := AST2400_UART_5_BASE;
            sub_region := serial_io chr; sub_priority := 0 |} ]
  /\ AST2400_UART_5_BASE = 0x00184000
  /\ 0 <= AST2400_UART_5_BASE < AST2400_IOMEM_SIZE
  /\ map uart_stride_bits (uarts (trace_of (compose env))) = [Some 16]
  /\ wire_of (uart5_call chr) = [(serial_irq_out chr, qdev_get_gpio_in vic 10)]
  /\ nth 4 uart_irqs 0 = 10.
Proof.
  intros Hser Hprev.
  destruct env as [sb ss irq fiq hds nd fi fb again].
  cbn [serial_hds0] in Hser. subst hds.
  assert (Hpost : exists post,
             trace_of (compose (Build_Env sb ss irq fiq (Some chr) nd fi fb again))
             = before is_uart
                 (full_trace (Build_Env sb ss irq fiq (Some chr) nd fi fb again))
               ++ uart5_call chr :: post
             /\ Forall (fun ev => subregion_of ev = []
                                  \/ exists d a, ev = E_sysbus_mmio_map d 0 a) post).
  { vm_compute. repeat known_or_case Hprev.
    all: eexists; split; [reflexivity|].
    all: repeat (apply Forall_cons;
                 [ first [ left; reflexivity
                         | right; eexists; eexists; reflexivity ] |]).
    all: apply Forall_nil. }
  destruct Hpost as (post & Htr & Hpost).
  assert (Hu : uarts post = []
               /\ filter (fun m => if MemoryRegion_eq_dec (sub_container m) iomem
                                   then true else false)
                         (address_space post) = []).
  { clear Htr. induction Hpost as [|ev post Hev _ IH]; [split; reflexivity|].
    destruct IH as [IH1 IH2].
    unfold uarts, address_space in *. cbn [filter flat_map].
    rewrite filter_app, IH1, IH2.
    destruct Hev as [Hev | (d & a & ->)].
    - rewrite Hev. destruct ev; try (split; reflexivity); discriminate Hev.
    - split; reflexivity. }
  destruct Hu as [Hu1 Hu2].
  assert (Hua : uarts (trace_of
                  (compose (Build_Env sb ss irq fiq (Some chr) nd fi fb again)))
                = [uart5_call chr]).
  { rewrite Htr. unfold uarts in *. rewrite filter_app. cbn [filter is_uart uart5_call].
    rewrite Hu1. vm_compute. reflexivity. }
  split; [exact Hua|].
  split.
  { rewrite Htr. unfold address_space in *. rewrite flat_map_app, filter_app.
    cbn [flat_map]. rewrite filter_app, Hu2. vm_compute.
    destruct (MemoryRegion_eq_dec iomem iomem); [reflexivity|congruence]. }
  split; [reflexivity|].
  split; [unfold AST2400_UART_5_BASE, AST2400_IOMEM_SIZE; lia|].
  split; [rewrite Hua; reflexivity|]. split; reflexivity.
Qed.

Lemma uart_instantiated_once_witness :
  serial_hds0 (quiet_env (Some "serial0") user_nic) = Some "serial0"
  /\ uarts (trace_of (compose (quiet_env (Some "serial0") user_nic)))
     = [uart5_call "serial0"].
Proof.
  split; [reflexivity|].
  assert (Hprev : forall ev,
             In ev (before is_uart (full_trace (quiet_env (Some "serial0") user_nic))) ->
             result_of (quiet_env (Some "serial0") user_nic) ev = None).
  { intros ev Hev. destruct ev; reflexivity. }
  exact (proj1 (uart_instantiated_once (quiet_env (Some "serial0") user_nic)
                  "serial0" eq_refl Hprev)).
Defined.

(** C8: without a serial backend the composition makes no UART call and
    leaves no UART region in the address space; apart from that it is the
    run it would be with a backend, with the same calls and the same outcome
    for the caller.  Its calls are an initial segment of all the other steps
    of the source, written out in [steps_without_uart]; when no collaborator
    reports an error it makes every one of them and succeeds, and with a
    backend the only difference is the UART call between the system-control
    unit and the two-wire bus controller. *)
Theorem missing_serial_backend_is_not_an_error (env : Env) :
  serial_hds0 env = None ->
  uarts (trace_of (compose env)) = []
  /\ Forall (fun m => forall chr, sub_region m <> serial_io chr)
            (address_space (trace_of (compose env)))
  /\ (forall chr,
        errp_of (compose env) = errp_of (compose (with_serial env (Some chr)))
        /\ trace_of (compose env)
           = filter (fun ev => negb (is_uart ev))
                    (trace_of (compose (with_serial env (Some chr)))))
  /\ ((forall ev, In ev (full_trace env) -> result_of env ev = None) ->
      compose env = Finished None (full_trace env)
      /\ full_trace env
         = filter (fun ev => negb (is_uart ev))
                  (full_trace (with_serial env (Some "serial0"))))
  /\ (exists rest, steps_without_uart env = trace_of (compose env) ++ rest)
  /\ ((forall ev, In ev (steps_without_uart env) -> result_of env ev = None) ->
      compose env = Finished None (steps_without_uart env))
  /\ (forall chr,
        (forall ev, In ev (steps_with_uart env chr) -> result_of env ev = None) ->
        compose (with_serial env (Some chr))
        = Finished None (steps_with_uart env chr)).
Proof.
  intros Hser.
  destruct (compose_trace_prefix env) as [rest Hfull].
  destruct env as [sb ss irq fiq hds nd fi fb again].
  cbn [serial_hds0] in Hser. subst hds.
  assert (Hsteps : full_trace (Build_Env sb ss irq fiq None nd fi fb again)
                   = steps_without_uart
                       (Build_Env sb ss irq fiq None nd fi fb again))
    by (vm_compute; reflexivity).
  split; [|split; [|split; [|split; [|split; [|split]]]]].
  - assert (Hu : uarts (full_trace (Build_Env sb ss irq fiq None nd fi fb again))
                 = []) by (vm_compute; reflexivity).
    rewrite Hfull in Hu. unfold uarts in *. rewrite filter_app in Hu.
    apply app_eq_nil in Hu. exact (proj1 Hu).
  - assert (Ha : Forall (fun m => forall chr, sub_region m <> serial_io chr)
                   (address_space
                      (full_trace (Build_Env sb ss irq fiq None nd fi fb again))))
      by (vm_compute; repeat constructor; discriminate).
    rewrite Hfull in Ha. unfold address_space in *. rewrite flat_map_app in Ha.
    apply Forall_app in Ha. exact (proj1 Ha).
  - intros chr. clear Hfull Hsteps. cbv [with_serial]. unfold_realize.
    cbv [errp_of].
    repeat case_head.
    all: split; vm_compute; reflexivity.
  - intros Hall. split; [apply compose_all_succeed; exact Hall|].
    vm_compute. reflexivity.
  - exists rest. rewrite <- Hsteps. exact Hfull.
  - intros Hall. rewrite <- Hsteps. apply compose_all_succeed.
    rewrite Hsteps. exact Hall.
  - intros chr Hall.
    assert (Hw : full_trace (with_serial
                               (Build_Env sb ss irq fiq None nd fi fb again)
                               (Some chr))
                 = steps_with_uart
                     (Build_Env sb ss irq fiq None nd fi fb again) chr)
      by (vm_compute; reflexivity).
    rewrite <- Hw. apply compose_all_succeed. rewrite Hw. exact Hall.
Qed.

Lemma missing_serial_backend_is_not_an_error_witness :
  serial_hds0 (quiet_env None user_nic) = None
  /\ uarts (trace_of (compose (quiet_env None user_nic))) = []
  /\ compose (quiet_env None user_nic)
     = Finished None (full_trace (quiet_env None user_nic))
  /\ compose (quiet_env None user_nic)
     = Finished None (steps_without_uart (quiet_env None user_nic)).
Proof.
  split; [reflexivity|].
  destruct (missing_serial_backend_is_not_an_error (quiet_env None user_nic)
              eq_refl) as (Hu & _ & _ & Hok & _ & Hsteps & _).
  split; [exact Hu|].
  assert (Hall : forall ev, In ev (full_trace (quiet_env None user_nic)) ->
                            result_of (quiet_env None user_nic) ev = None).
  { intros ev Hev. destruct ev; reflexivity. }
  split; [exact (proj1 (Hok Hall))|].
  apply Hsteps. intros ev _. destruct ev; reflexivity.
Defined.

(** ** Layering of the address space *)

Lemma address_space_app (l1 l2 : list Event) :
  address_space (l1 ++ l2) = address_space l1 ++ address_space l2.
Proof. unfold address_space. apply flat_map_app. Qed.

Lemma address_space_event (tr : list Event) (ev : Event) (m : Subregion) :
  In ev tr -> In m (subregion_of ev) -> In m (address_space tr).
Proof.
  intros Hev Hm. unfold address_space. apply in_flat_map.
  exists ev. split; assumption.
Qed.

(** Every run, finished or cut short, leaves a layered address space. *)
Lemma compose_layered (env : Env) :
  Forall layered (address_space (trace_of (compose env))).
Proof.
  assert (Hall : Forall layered (address_space (full_trace env))).
  { destruct env as [sb ss irq fiq hds nd fi fb again].
    destruct hds as [chr|]; vm_compute.
    all: repeat (apply Forall_cons;
                 [ first [ left; reflexivity
                         | right; repeat split;
                           first [ reflexivity | left; reflexivity
                                 | right; reflexivity | discriminate ] ] |]).
    all: apply Forall_nil. }
  destruct (compose_trace_prefix env) as [rest Hfull].
  rewrite Hfull, address_space_app in Hall.
  apply Forall_app in Hall. exact (proj1 Hall).
Qed.

Section TopLayer.
Variable device_size : MemoryRegion -> Z.

Lemma in_top_layer (l : list Subregion) (m : Subregion) :
  In m (top_layer l) <->
  In m l /\ forall m', In m' l -> sub_priority m' <= sub_priority m.
Proof.
  unfold top_layer. rewrite filter_In, forallb_forall.
  split; intros [Hin Hmax]; (split; [exact Hin|]);
    intros m' Hm'; specialize (Hmax m' Hm'); lia.
Qed.

Lemma in_candidates (tr : list Event) (c : MemoryRegion) (addr : Z)
      (m : Subregion) :
  In m (candidates device_size tr c addr) <->
  In m (address_space tr) /\ sub_container m = c
  /\ covers device_size tr m addr = true.
Proof.
  unfold candidates. rewrite filter_In, andb_true_iff.
  destruct (MemoryRegion_eq_dec (sub_container m) c); intuition congruence.
Qed.

Lemma no_candidates (tr : list Event) (c : MemoryRegion) (addr : Z) :
  (forall m, In m (address_space tr) -> sub_container m <> c) ->
  candidates device_size tr c addr = [].
Proof.
  intros Hno.
  destruct (candidates device_size tr c addr) as [|m l] eqn:Hc; [reflexivity|].
  assert (Hin : In m (candidates device_size tr c addr))
    by (rewrite Hc; left; reflexivity).
  apply in_candidates in Hin. destruct Hin as (Hin & Hcont & _).
  exfalso. exact (Hno m Hin Hcont).
Qed.

(** In a layered address space, an address covered by a region that was
    mapped in system memory at priority 0 is dispatched to that region and
    not to the catch-all. *)
Lemma mapped_region_shadows_catch_all (tr : list Event) (m : Subregion)
      (addr : Z) :
  Forall layered (address_space tr) ->
  In m (address_space tr) ->
  sub_container m = get_system_memory ->
  sub_priority m = 0 ->
  (exists d n, sub_region m = sysbus_mmio d n) ->
  covers device_size tr m addr = true ->
  In (sub_region m) (dispatch device_size tr addr)
  /\ ~ In iomem (dispatch device_size tr addr).
Proof.
  intros Hlay Hin Hcont Hprio (d & n & Hreg) Hcov.
  rewrite Forall_forall in Hlay.
  assert (Hprio_le : forall m', In m' (address_space tr) -> sub_priority m' <= 0).
  { intros m' Hm'. destruct (Hlay m' Hm') as [-> | (H0 & _)]; [cbn|]; lia. }
  assert (Hcand : In m (candidates device_size tr get_system_memory addr))
    by (apply in_candidates; auto).
  assert (Htop : In m (top_layer (candidates device_size tr get_system_memory addr))).
  { apply in_top_layer. split; [exact Hcand|].
    intros m' Hm'. apply in_candidates in Hm'. rewrite Hprio.
    apply Hprio_le. exact (proj1 Hm'). }
  split.
  - unfold dispatch. apply in_flat_map. exists m. split; [exact Htop|].
    rewrite (no_candidates tr (sub_region m)); [left; reflexivity|].
    intros m' Hm' Hc. rewrite Hreg in Hc.
    destruct (Hlay m' Hm') as [-> | (_ & _ & _ & [Hs | Hs])];
      [cbn in Hc | rewrite Hs in Hc | rewrite Hs in Hc]; discriminate.
  - unfold dispatch. rewrite in_flat_map. intros (m0 & Hm0 & Hio).
    apply in_top_layer in Hm0. destruct Hm0 as [Hc0 Hmax].
    apply in_candidates in Hc0. destruct Hc0 as (Hin0 & Hcont0 & _).
    destruct (top_layer (candidates device_size tr (sub_region m0)
                           (addr - sub_offset m0))) as [|m1 inner] eqn:Hinner.
    + destruct Hio as [Hio | []].
      destruct (Hlay m0 Hin0) as [-> | (_ & Hne & _)]; [|congruence].
      specialize (Hmax m Hcand). cbn in Hmax. lia.
    + assert (Hio' : exists m', In m' (top_layer
                        (candidates device_size tr (sub_region m0)
                           (addr - sub_offset m0)))
                      /\ sub_region m' = iomem).
      { rewrite Hinner. apply in_map_iff in Hio.
        destruct Hio as (m' & Hr & Hm'). exists m'. split; assumption. }
      destruct Hio' as (m' & Hm' & Hr').
      apply in_top_layer in Hm'. destruct Hm' as [Hm' _].
      apply in_candidates in Hm'. destruct Hm' as (Hin' & Hcont' & _).
      destruct (Hlay m' Hin') as [-> | (_ & Hne & _)]; [|congruence].
      cbn in Hcont'.
      destruct (Hlay m0 Hin0) as [-> | (_ & _ & Hne & _)];
        [cbn in Hcont'; discriminate | congruence].
Qed.
End TopLayer.

(** C4: the catch-all region is inserted once, in system memory at the base
    of the IO window with priority -1, and every other region has priority
    0.  The base of each of the five peripherals lies inside the window, and
    in every state that a composition leaves, finished or cut short, once a
    peripheral has been mapped an access at its base is dispatched to its
    region and not to the catch-all; a successful composition has mapped all
    five. *)
Theorem peripherals_shadow_catch_all
    (device_size : MemoryRegion -> Z) (env : Env) (p : Obj) (base : Z) :
  In (p, base) peripheral_bases ->
  0 < device_size (sysbus_mmio p 0) ->
  (forall m, In m (address_space (trace_of (compose env))) ->
     (sub_region m = iomem -> m = catch_all_subregion)
     /\ (sub_region m <> iomem -> sub_priority m = 0))
  /\ sub_priority catch_all_subregion = -1
  /\ AST2400_IOMEM_BASE <= base < AST2400_IOMEM_BASE + AST2400_IOMEM_SIZE
  /\ (In (E_sysbus_mmio_map p 0 base) (trace_of (compose env)) ->
      In (sysbus_mmio p 0) (dispatch device_size (trace_of (compose env)) base)
      /\ ~ In iomem (dispatch device_size (trace_of (compose env)) base))
  /\ (is_success (compose env) = true ->
      In catch_all_subregion (address_space (trace_of (compose env)))
      /\ In (E_sysbus_mmio_map p 0 base) (trace_of (compose env))).
Proof.
  intros Hp Hsize.
  pose proof (compose_layered env) as Hlay.
  split; [|split; [reflexivity|split; [|split]]].
  - intros m Hm. rewrite Forall_forall in Hlay.
    destruct (Hlay m Hm) as [-> | (H0 & Hne & _)].
    + split; [reflexivity | intros H; cbn in H; congruence].
    + split; [intros H; congruence | intros _; exact H0].
  - cbv [peripheral_bases In] in Hp.
    decompose [or] Hp; try contradiction;
      match goal with H : (_, _) = (_, _) |- _ => injection H as <- <- end;
      cbv [AST2400_IOMEM_BASE AST2400_IOMEM_SIZE AST2400_VIC_BASE
           AST2400_TIMER_BASE CDNS_GEM_ADDR AST2400_SCU_BASE AST2400_I2C_BASE];
      lia.
  - intros Hev.
    apply (mapped_region_shadows_catch_all device_size _
             {| sub_container := get_system_memory; sub_offset := base;
                sub_region := sysbus_mmio p 0; sub_priority := 0 |}).
    + exact Hlay.
    + apply (address_space_event _ _ _ Hev). left. reflexivity.
    + reflexivity.
    + reflexivity.
    + exists p, 0. reflexivity.
    + unfold covers, region_size. cbn [sub_offset sub_region].
      apply andb_true_iff. split; [apply Z.leb_le | apply Z.ltb_lt]; lia.
  - intros Hok.
    destruct (compose env) as [[e|] tr|tr] eqn:Hrun; try discriminate Hok.
    apply compose_success_trace in Hrun. subst tr. cbn [trace_of].
    destruct env as [sb ss irq fiq hds nd fi fb again].
    cbv [peripheral_bases In] in Hp.
    destruct hds as [chr|];
      decompose [or] Hp; try contradiction;
      match goal with H : (_, _) = (_, _) |- _ => injection H as <- <- end.
    all: split; vm_compute; in_list.
Qed.

Lemma peripherals_shadow_catch_all_witness :
  In (scu, AST2400_SCU_BASE) peripheral_bases
  /\ 0 < example_size (sysbus_mmio scu 0)
  /\ In (sysbus_mmio scu 0)
        (dispatch example_size
           (trace_of (compose (quiet_env (Some "serial0") user_nic)))
           AST2400_SCU_BASE)
  /\ ~ In iomem
        (dispatch example_size
           (trace_of (compose (quiet_env (Some "serial0") user_nic)))
           AST2400_SCU_BASE).
Proof.
  assert (Hp : In (scu, AST2400_SCU_BASE) peripheral_bases)
    by (vm_compute; in_list).
  assert (Hs : 0 < example_size (sysbus_mmio scu 0)) by reflexivity.
  split; [exact Hp|]. split; [exact Hs|].
  destruct (peripherals_shadow_catch_all example_size
              (quiet_env (Some "serial0") user_nic) scu AST2400_SCU_BASE Hp Hs)
    as (_ & _ & _ & Hd & Hok).
  exact (Hd (proj2 (Hok eq_refl))).
Defined.

(** ** Order of the calls within a run *)

(** Every run keeps the order of [precedes_ok], returns an error only as
    [error_exit_ok] says, and starts with the memory set-up. *)
Lemma compose_run_shape (env : Env) :
  ordered_from env [] (trace_of (compose env)) = true
  /\ error_exit_ok env (compose env) = true
  /\ exists rest, trace_of (compose env) = memory_setup env ++ rest.
Proof.
  destruct env as [sb ss irq fiq hds nd fi fb again].
  destruct hds as [chr|]; unfold_realize.
  all: repeat case_head.
  all: split;
    [ vm_compute; use_results; vm_compute; reflexivity
    | split; [ vm_compute; use_results; vm_compute; reflexivity
             | eexists; reflexivity ] ].
Qed.

Lemma ordered_from_sound (env : Env) (l : list Event) :
  forall pre0 pre ev post,
    ordered_from env pre0 l = true ->
    l = pre ++ ev :: post ->
    precedes_ok env (pre0 ++ pre) ev = true.
Proof.
  induction l as [|x l IH]; intros pre0 pre ev post Hord Hl.
  - destruct pre; discriminate Hl.
  - cbn [ordered_from] in Hord. apply andb_true_iff in Hord.
    destruct Hord as [Hx Hrest].
    destruct pre as [|y pre]; cbn [app] in Hl; injection Hl as <- ->.
    + rewrite app_nil_r. exact Hx.
    + replace (pre0 ++ x :: pre) with ((pre0 ++ [x]) ++ pre)
        by (rewrite <- app_assoc; reflexivity).
      exact (IH _ _ _ _ Hrest eq_refl).
Qed.

(** The condition of [precedes_ok] holds at every call of every run. *)
Lemma compose_precedes (env : Env) (pre : list Event) (ev : Event)
      (post : list Event) :
  trace_of (compose env) = pre ++ ev :: post ->
  precedes_ok env pre ev = true.
Proof.
  intros Htr.
  exact (ordered_from_sound env _ [] pre ev post
           (proj1 (compose_run_shape env)) Htr).
Qed.

Lemma is_activation_of_true (d : Obj) (ev : Event) :
  is_activation_of d ev = true -> ev = activation d.
Proof.
  unfold is_activation_of, activation.
  destruct ev as [| | | |o v name|o v name| | | | | |]; try discriminate.
  destruct v; [|discriminate].
  destruct (Obj_eq_dec o d); [|discriminate].
  destruct (string_dec name "realized"); [|discriminate].
  intros _. subst. reflexivity.
Qed.

Lemma is_activation_of_activation (d : Obj) :
  is_activation_of d (activation d) = true.
Proof.
  unfold is_activation_of, activation.
  destruct (Obj_eq_dec d d); [|congruence].
  destruct (string_dec "realized" "realized"); [reflexivity|congruence].
Qed.

Lemma activated_in_spec (env : Env) (pre : list Event) (d : Obj) :
  activated_in env pre d = true ->
  In (activation d) pre /\ result_of env (activation d) = None.
Proof.
  unfold activated_in, failed. intros H.
  apply andb_true_iff in H. destruct H as [Hex Hres].
  apply existsb_exists in Hex. destruct Hex as (x & Hin & Hx).
  apply is_activation_of_true in Hx. subst x.
  split; [exact Hin|].
  destruct (result_of env (activation d)); [discriminate|reflexivity].
Qed.

Lemma not_activated_spec (pre : list Event) (d : Obj) :
  negb (existsb (is_activation_of d) pre) = true -> ~ In (activation d) pre.
Proof.
  intros H Hin. apply negb_true_iff in H.
  assert (Hex : existsb (is_activation_of d) pre = true).
  { apply existsb_exists. exists (activation d).
    split; [exact Hin | apply is_activation_of_activation]. }
  congruence.
Qed.

Lemma is_peripheral_spec (d : Obj) :
  is_peripheral d = true <-> In d activation_order.
Proof.
  unfold is_peripheral. rewrite existsb_exists. split.
  - intros (q & Hq & Heq). destruct (Obj_eq_dec q d); [subst; exact Hq|discriminate].
  - intros Hd. exists d. split; [exact Hd|].
    destruct (Obj_eq_dec d d); congruence.
Qed.

(** X1: in every run, finished or cut short, a sysbus device is mapped, and
    an output of it is wired, only after its own activation has been called
    and has reported no error. *)
Theorem mapped_and_wired_after_activation
    (env : Env) (pre : list Event) (ev : Event) (post : list Event) (d : Obj) :
  trace_of (compose env) = pre ++ ev :: post ->
  (exists n a, ev = E_sysbus_mmio_map d n a)
  \/ (exists n irq, ev = E_sysbus_connect_irq d n irq) ->
  In (activation d) pre /\ result_of env (activation d) = None.
Proof.
  intros Htr Hev. pose proof (compose_precedes env pre ev post Htr) as Hok.
  destruct Hev as [(n & a & ->) | (n & [t k] & ->)]; cbn [precedes_ok] in Hok.
  - apply activated_in_spec. exact Hok.
  - apply andb_true_iff in Hok. apply activated_in_spec. exact (proj1 Hok).
Qed.

Lemma mapped_and_wired_after_activation_witness :
  let env := failing_activation_env (Some "serial0") scu "no scu" in
  trace_of (compose env)
  = firstn 24 (full_trace env)
    ++ E_sysbus_mmio_map gem 0 CDNS_GEM_ADDR :: skipn 25 (trace_of (compose env))
  /\ In (activation gem) (firstn 24 (full_trace env))
  /\ result_of env (activation gem) = None.
Proof.
  intros env.
  assert (Htr : trace_of (compose env)
                = firstn 24 (full_trace env)
                  ++ E_sysbus_mmio_map gem 0 CDNS_GEM_ADDR
                     :: skipn 25 (trace_of (compose env)))
    by (vm_compute; reflexivity).
  split; [exact Htr|].
  exact (mapped_and_wired_after_activation env _ _ _ gem Htr
           (or_introl (ex_intro _ 0 (ex_intro _ CDNS_GEM_ADDR eq_refl)))).
Defined.

(** X2: in every run, an interrupt line handed to [sysbus_connect_irq] or to
    [serial_mm_init] is an input of the CPU or an input of a device whose
    activation has already been called and has reported no error. *)
Theorem lines_used_after_activation
    (env : Env) (pre : list Event) (ev : Event) (post : list Event)
    (src : IrqSource) (t : Obj) (n : Z) :
  trace_of (compose env) = pre ++ ev :: post ->
  In (src, qdev_get_gpio_in t n) (wire_of ev) ->
  t = cpu \/ (In (activation t) pre /\ result_of env (activation t) = None).
Proof.
  intros Htr Hw. pose proof (compose_precedes env pre ev post Htr) as Hok.
  destruct ev as [| | | | | | |d k [t' n']| | |c base st [t' n'] baud chr en|];
    cbn [wire_of] in Hw; try contradiction;
    destruct Hw as [Hw | []]; injection Hw as _ -> ->;
    cbn [precedes_ok] in Hok;
    apply andb_true_iff in Hok.
  - destruct Hok as [_ Hok]. apply orb_true_iff in Hok.
    destruct Hok as [Hc | Ha].
    + left. destruct t; try discriminate. reflexivity.
    + right. apply activated_in_spec. exact Ha.
  - destruct Hok as [Hok _]. apply orb_true_iff in Hok.
    destruct Hok as [Hc | Ha].
    + left. destruct t; try discriminate. reflexivity.
    + right. apply activated_in_spec. exact Ha.
Qed.

Lemma lines_used_after_activation_witness :
  let env := quiet_env (Some "serial0") user_nic in
  trace_of (compose env)
  = firstn 32 (full_trace env) ++ uart5_call "serial0" :: skipn 33 (full_trace env)
  /\ (vic = cpu
      \/ (In (activation vic) (firstn 32 (full_trace env))
          /\ result_of env (activation vic) = None)).
Proof.
  intros env.
  assert (Htr : trace_of (compose env)
                = firstn 32 (full_trace env)
                  ++ uart5_call "serial0" :: skipn 33 (full_trace env))
    by (vm_compute; reflexivity).
  split; [exact Htr|].
  exact (lines_used_after_activation env _ _ _ (serial_irq_out "serial0") vic 10
           Htr (or_introl eq_refl)).
Defined.

(** X3: in every run, whatever is applied to one of the five peripherals (an
    integer property, the NIC properties, the activation itself) is applied
    before that peripheral's activation: nothing is configured after
    activation and no peripheral is activated twice. *)
Theorem configured_before_activation
    (env : Env) (pre : list Event) (ev : Event) (post : list Event) (d : Obj) :
  trace_of (compose env) = pre ++ ev :: post ->
  In d activation_order ->
  (exists v name, ev = E_object_property_set_int d v name)
  \/ (exists v name, ev = E_object_property_set_bool d v name)
  \/ (exists nd, ev = E_qdev_set_nic_properties d nd) ->
  ~ In (activation d) pre.
Proof.
  intros Htr Hd Hev. pose proof (compose_precedes env pre ev post Htr) as Hok.
  destruct Hev as [(v & name & ->) | [(v & name & ->) | (nd & ->)]];
    cbn [precedes_ok] in Hok; apply not_activated_spec.
  - destruct d; try exact Hok.
    cbv [activation_order In] in Hd.
    decompose [or] Hd; try discriminate; contradiction.
  - exact Hok.
  - exact Hok.
Qed.

Lemma configured_before_activation_witness :
  let env := quiet_env None user_nic in
  trace_of (compose env)
  = firstn 28 (full_trace env)
    ++ E_object_property_set_int scu 0x000000FF "scu8c"
       :: skipn 29 (full_trace env)
  /\ In scu activation_order
  /\ ~ In (activation scu) (firstn 28 (full_trace env)).
Proof.
  intros env.
  assert (Htr : trace_of (compose env)
                = firstn 28 (full_trace env)
                  ++ E_object_property_set_int scu 0x000000FF "scu8c"
                     :: skipn 29 (full_trace env))
    by (vm_compute; reflexivity).
  assert (Hd : In scu activation_order) by (vm_compute; in_list).
  split; [exact Htr|]. split; [exact Hd|].
  exact (configured_before_activation env _ _ _ scu Htr Hd
           (or_introl (ex_intro _ _ (ex_intro _ _ eq_refl)))).
Defined.

(** X4: in every run, a slave is created on a bus of the two-wire controller
    only after that controller's activation has been called and has reported
    no error, and a property is applied to a slave only after the call that
    created it. *)
Theorem slaves_after_bus_activation
    (env : Env) (pre : list Event) (ev : Event) (post : list Event) :
  trace_of (compose env) = pre ++ ev :: post ->
  (forall d k name a,
      ev = E_i2c_create_slave (aspeed_i2c_get_bus d k) name a ->
      In (activation d) pre /\ result_of env (activation d) = None)
  /\ (forall bus name a v prop,
         ev = E_object_property_set_int (i2c_slave bus name a) v prop ->
         In (E_i2c_create_slave bus name a) pre).
Proof.
  intros Htr. pose proof (compose_precedes env pre ev post Htr) as Hok.
  split.
  - intros d k name a ->. cbn [precedes_ok] in Hok.
    apply activated_in_spec. exact Hok.
  - intros bus name a v prop ->. cbn [precedes_ok] in Hok.
    apply existsb_exists in Hok. destruct Hok as (x & Hin & Hx).
    destruct x; try discriminate Hx. cbn [creates_slave] in Hx.
    match type of Hx with
    | (if ?c then _ else _) = _ => destruct c as [Heq|]; [|discriminate]
    end.
    injection Heq as -> -> ->. exact Hin.
Qed.

Lemma slaves_after_bus_activation_witness :
  let env := quiet_env None user_nic in
  let tmp423 := i2c_slave (aspeed_i2c_get_bus i2c 2) "tmp423" 0x4c in
  trace_of (compose env)
  = firstn 37 (full_trace env)
    ++ E_object_property_set_int tmp423 28000 "temperature1"
       :: skipn 38 (full_trace env)
  /\ In (E_i2c_create_slave (aspeed_i2c_get_bus i2c 2) "tmp423" 0x4c)
        (firstn 37 (full_trace env)).
Proof.
  intros env tmp423.
  assert (Htr : trace_of (compose env)
                = firstn 37 (full_trace env)
                  ++ E_object_property_set_int tmp423 28000 "temperature1"
                     :: skipn 38 (full_trace env))
    by (vm_compute; reflexivity).
  split; [exact Htr|].
  exact (proj2 (slaves_after_bus_activation env _ _ _ Htr) _ _ _ _ _ eq_refl).
Defined.

(** X5: every run, whatever the collaborators report, starts with the four
    calls that create and insert the SRAM and the catch-all IO region, so
    both regions are in the address space afterwards, the SRAM at its base
    with priority 0 and the catch-all at the IO base with priority -1. *)
Theorem memory_set_up_in_every_run (env : Env) :
  (exists rest, trace_of (compose env) = memory_setup env ++ rest)
  /\ In {| sub_container := get_system_memory;
           sub_offset := AST2400_SRAM_BASE env;
           sub_region := sram; sub_priority := 0 |}
        (address_space (trace_of (compose env)))
  /\ In catch_all_subregion (address_space (trace_of (compose env))).
Proof.
  destruct (compose_run_shape env) as (_ & _ & rest & Hrest).
  split; [exists rest; exact Hrest|].
  rewrite Hrest. unfold address_space. rewrite flat_map_app.
  split; apply in_or_app; left; cbn; tauto.
Qed.

(** X6: in every run, a region is inserted in the address space only after
    the call that created it, and the UART is placed inside a region only
    after that region has been inserted. *)
Theorem regions_inserted_after_creation
    (env : Env) (pre : list Event) (ev : Event) (post : list Event) :
  trace_of (compose env) = pre ++ ev :: post ->
  (forall c off mr prio,
      ev = E_memory_region_add_subregion c off mr
      \/ ev = E_memory_region_add_subregion_overlap c off mr prio ->
      exists x, In x pre /\ creates_region mr x = true)
  /\ (forall c base st irq baud chr en,
         ev = E_serial_mm_init c base st irq baud chr en ->
         exists x, In x pre /\ inserts_region c x = true).
Proof.
  intros Htr. pose proof (compose_precedes env pre ev post Htr) as Hok.
  split.
  - intros c off mr prio [-> | ->]; cbn [precedes_ok] in Hok;
      apply existsb_exists in Hok; exact Hok.
  - intros c base st [t n] baud chr en ->. cbn [precedes_ok] in Hok.
    apply andb_true_iff in Hok. destruct Hok as [_ Hok].
    apply existsb_exists in Hok. exact Hok.
Qed.

Lemma regions_inserted_after_creation_witness :
  let env := quiet_env (Some "serial0") user_nic in
  trace_of (compose env)
  = firstn 32 (full_trace env) ++ uart5_call "serial0" :: skipn 33 (full_trace env)
  /\ exists x, In x (firstn 32 (full_trace env)) /\ inserts_region iomem x = true.
Proof.
  intros env.
  assert (Htr : trace_of (compose env)
                = firstn 32 (full_trace env)
                  ++ uart5_call "serial0" :: skipn 33 (full_trace env))
    by (vm_compute; reflexivity).
  split; [exact Htr|].
  exact (proj2 (regions_inserted_after_creation env _ _ _ Htr)
           _ _ _ _ _ _ _ eq_refl).
Defined.

Lemma is_check_point_spec (ev : Event) :
  is_check_point ev = true ->
  ev = E_object_property_set_int vic 0x00005F07FFF8FFFF "event"
  \/ exists p, In p activation_order /\ ev = activation p.
Proof.
  unfold is_check_point.
  destruct ev as [| | | |o v name|o v name| | | | | |]; try discriminate.
  - intros H. apply andb_true_iff in H. destruct H as [H Hn].
    apply andb_true_iff in H. destruct H as [Ho Hv].
    destruct (Obj_eq_dec o vic); [|discriminate].
    destruct (string_dec name "event"); [|discriminate].
    apply Z.eqb_eq in Hv. subst. left. reflexivity.
  - destruct v; [|discriminate].
    intros H. apply andb_true_iff in H. destruct H as [Ho Hn].
    destruct (string_dec name "realized"); [|discriminate].
    apply is_peripheral_spec in Ho. subst.
    right. exists o. split; [exact Ho | reflexivity].
Qed.

(** A run that returns an error has made a call on one of the five
    peripherals that reported one, and stops at a check point. *)
Lemma error_exit_cause (env : Env) (e : Error) (tr : list Event) :
  compose env = Finished (Some e) tr ->
  (exists pre ev, tr = pre ++ [ev] /\ is_check_point ev = true)
  /\ exists ev p, In ev tr /\ subject ev = Some p /\ In p activation_order
                  /\ result_of env ev <> None.
Proof.
  intros Hrun.
  destruct (compose_run_shape env) as (_ & Hexit & _).
  rewrite Hrun in Hexit. cbn [error_exit_ok] in Hexit.
  apply andb_true_iff in Hexit. destruct Hexit as [Hlast Hcause].
  split.
  - destruct (rev tr) as [|ev l] eqn:Hrev; [discriminate|].
    exists (rev l), ev. split; [|exact Hlast].
    rewrite <- (rev_involutive tr), Hrev. reflexivity.
  - apply existsb_exists in Hcause. destruct Hcause as (ev & Hin & Hev).
    apply andb_true_iff in Hev. destruct Hev as [Hf Hp].
    destruct (subject ev) as [p|] eqn:Hs; [|discriminate].
    exists ev, p. split; [exact Hin|]. split; [exact Hs|].
    split; [apply is_peripheral_spec; exact Hp|].
    unfold failed in Hf. destruct (result_of env ev); [discriminate|discriminate].
Qed.

(** X7: a composition returns an error only right after the third mask
    application or right after one of the five activations (never in the
    middle of mapping or wiring), and only when some call that it made on one
    of the five peripherals reported an error. *)
Theorem error_returned_at_a_check_with_a_cause
    (env : Env) (e : Error) (tr : list Event) :
  compose env = Finished (Some e) tr ->
  (exists pre ev,
      tr = pre ++ [ev]
      /\ (ev = E_object_property_set_int vic 0x00005F07FFF8FFFF "event"
          \/ exists p, In p activation_order /\ ev = activation p))
  /\ exists ev p, In ev tr /\ subject ev = Some p /\ In p activation_order
                  /\ result_of env ev <> None.
Proof.
  intros Hrun. destruct (error_exit_cause env e tr Hrun) as [Hlast Hcause].
  split; [|exact Hcause].
  destruct Hlast as (pre & ev & Htr & Hcp).
  exists pre, ev. split; [exact Htr | apply is_check_point_spec; exact Hcp].
Qed.

Lemma error_returned_at_a_check_with_a_cause_witness :
  let env := failing_int_env None scu "scu0c" "bad preset" in
  compose env = Finished (Some "bad preset") (firstn 31 (full_trace env))
  /\ exists ev p, In ev (firstn 31 (full_trace env)) /\ subject ev = Some p
                  /\ In p activation_order /\ result_of env ev <> None.
Proof.
  intros env.
  assert (Hrun : compose env
                 = Finished (Some "bad preset") (firstn 31 (full_trace env)))
    by (vm_compute; reflexivity).
  split; [exact Hrun|].
  exact (proj2 (error_returned_at_a_check_with_a_cause env _ _ Hrun)).
Defined.

(** X8: a composition that reports success has seen no error from any call
    on the five peripherals: every mask, preset and activation that it made
    reported none. *)
Theorem success_means_peripherals_reported_nothing
    (env : Env) (tr : list Event) (ev : Event) (p : Obj) :
  compose env = Finished None tr ->
  In ev tr ->
  subject ev = Some p ->
  In p activation_order ->
  result_of env ev = None.
Proof.
  intros Hrun Hin Hs Hp.
  destruct (result_of env ev) as [e|] eqn:Hres; [|reflexivity].
  exfalso.
  apply in_split in Hin. destruct Hin as (pre & post & Htr).
  pose proof (compose_failures_contained env) as Hc.
  rewrite Hrun in Hc. cbn [is_success trace_of] in Hc.
  destruct (failures_contained_sound env true tr Hc pre ev post p Htr
              ltac:(rewrite Hres; discriminate) Hp Hs) as [Hfalse _].
  discriminate Hfalse.
Qed.

Lemma success_means_peripherals_reported_nothing_witness :
  let tmp423 := i2c_slave (aspeed_i2c_get_bus i2c 2) "tmp423" 0x4c in
  let env := failing_int_env None tmp423 "temperature2" "bad reading" in
  compose env = Finished None (full_trace env)
  /\ result_of env (activation i2c) = None.
Proof.
  intros tmp423 env.
  assert (Hrun : compose env = Finished None (full_trace env))
    by (vm_compute; reflexivity).
  assert (Hin : In (activation i2c) (full_trace env)) by (vm_compute; in_list).
  assert (Hp : In i2c activation_order) by (vm_compute; in_list).
  split; [exact Hrun|].
  exact (success_means_peripherals_reported_nothing env _ _ i2c Hrun Hin
           eq_refl Hp).
Defined.

(** X9: errors of the temperature-sensor presets are never returned: when no
    call on the five peripherals reports an error, the composition does not
    return one, whatever the four preset applications on the sensor
    report. *)
Theorem sensor_errors_never_returned (env : Env) :
  (forall ev p, In ev (full_trace env) -> subject ev = Some p ->
                In p activation_order -> result_of env ev = None) ->
  forall e tr, compose env <> Finished (Some e) tr.
Proof.
  intros Hquiet e tr Hrun.
  destruct (error_exit_cause env e tr Hrun) as [_ (ev & p & Hin & Hs & Hp & Hres)].
  apply Hres. apply (Hquiet ev p); [|exact Hs|exact Hp].
  destruct (compose_trace_prefix env) as [rest Hfull].
  rewrite Hrun in Hfull. cbn [trace_of] in Hfull.
  rewrite Hfull. apply in_or_app. left. exact Hin.
Qed.

Lemma sensor_errors_never_returned_witness :
  let tmp423 := i2c_slave (aspeed_i2c_get_bus i2c 2) "tmp423" 0x4c in
  let env := failing_int_env None tmp423 "temperature0" "bad reading" in
  result_of env (E_object_property_set_int tmp423 31000 "temperature0")
    = Some "bad reading"
  /\ forall e tr, compose env <> Finished (Some e) tr.
Proof.
  intros tmp423 env.
  split; [vm_compute; reflexivity|].
  apply (sensor_errors_never_returned env).
  intros ev p _ Hs Hp.
  destruct ev; try discriminate Hs; injection Hs as ->;
    cbv [activation_order In] in Hp;
    decompose [or] Hp; try contradiction; subst; vm_compute; reflexivity.
Defined.

(** ** What a failed composition leaves behind *)

(** X10: there is no rollback.  When the activation of a peripheral fails
    (and no earlier call did), the error is returned and every peripheral
    that comes before it in the sequence is left activated, mapped at its
    base and present in the address space. *)
Theorem earlier_peripherals_stay_realized
    (env : Env) (p : Obj) (e : Error) (q : Obj) (base : Z) :
  In p activation_order ->
  result_of env (activation p) = Some e ->
  (forall ev, In ev (calls_before p env) -> result_of env ev = None) ->
  In q (activated_before p activation_order) ->
  In (q, base) peripheral_bases ->
  exists tr,
    compose env = Finished (Some e) tr
    /\ In (activation q) tr
    /\ In (E_sysbus_mmio_map q 0 base) tr
    /\ In (peripheral_subregion q base) (address_space tr).
Proof.
  intros Hp Hfail Hprev Hq Hb.
  exists (calls_before p env ++ [activation p]).
  split; [exact (activation_failure_result env p e Hp Hfail Hprev)|].
  clear Hfail Hprev.
  destruct env as [sb ss irq fiq hds nd fi fb again].
  cbv [activation_order In] in Hp.
  destruct hds as [chr|];
    decompose [or] Hp; clear Hp; subst; try contradiction;
    vm_compute in Hq; decompose [or] Hq; subst; try contradiction;
    cbv [peripheral_bases In] in Hb;
    decompose [or] Hb; try contradiction;
    try match goal with
        | H : (_, _) = (_, _) |- _ => discriminate H
        end;
    match goal with
    | H : (_, _) = (_, _) |- _ => injection H as <-
    end.
  all: split; [|split]; vm_compute; in_list.
Qed.

Lemma earlier_peripherals_stay_realized_witness :
  let env := failing_activation_env None gem "no mac" in
  In gem activation_order
  /\ result_of env (activation gem) = Some "no mac"
  /\ In timerctrl (activated_before gem activation_order)
  /\ In (timerctrl, AST2400_TIMER_BASE) peripheral_bases
  /\ exists tr,
       compose env = Finished (Some "no mac") tr
       /\ In (activation timerctrl) tr
       /\ In (E_sysbus_mmio_map timerctrl 0 AST2400_TIMER_BASE) tr
       /\ In (peripheral_subregion timerctrl AST2400_TIMER_BASE)
             (address_space tr).
Proof.
  intros env.
  assert (Hp : In gem activation_order) by (vm_compute; in_list).
  assert (Hf : result_of env (activation gem) = Some "no mac")
    by (vm_compute; reflexivity).
  assert (Hq : In timerctrl (activated_before gem activation_order))
    by (vm_compute; in_list).
  assert (Hb : In (timerctrl, AST2400_TIMER_BASE) peripheral_bases)
    by (vm_compute; in_list).
  split; [exact Hp|]. split; [exact Hf|]. split; [exact Hq|]. split; [exact Hb|].
  refine (earlier_peripherals_stay_realized env gem "no mac" timerctrl
            AST2400_TIMER_BASE Hp Hf _ Hq Hb).
  intros ev Hev. vm_compute in Hev.
  decompose [or] Hev; subst; try contradiction; vm_compute; reflexivity.
Defined.

(** ** Accesses that no peripheral claims *)

(** The catch-all and the SRAM are in the address space of every run. *)
Lemma memory_set_up_facts (env : Env) :
  In catch_all_subregion (address_space (trace_of (compose env)))
  /\ In {| sub_container := get_system_memory;
           sub_offset := AST2400_SRAM_BASE env;
           sub_region := sram; sub_priority := 0 |}
        (address_space (trace_of (compose env))).
Proof.
  destruct (compose_run_shape env) as (_ & _ & rest & Hrest).
  rewrite Hrest. unfold address_space. rewrite flat_map_app.
  split; apply in_or_app; left; cbn; tauto.
Qed.

(** The size the catch-all region was created with is known in every run. *)
Lemma catch_all_size (device_size : MemoryRegion -> Z) (env : Env) :
  region_size device_size (trace_of (compose env)) iomem = AST2400_IOMEM_SIZE.
Proof.
  destruct (compose_run_shape env) as (_ & _ & rest & Hrest).
  rewrite Hrest. unfold region_size. rewrite flat_map_app.
  cbv [memory_setup flat_map created_size app].
  destruct (MemoryRegion_eq_dec sram iomem); [discriminate|].
  destruct (MemoryRegion_eq_dec iomem iomem); [reflexivity|congruence].
Qed.

(** The only region a run puts inside the catch-all is the UART of the
    backend it was given. *)
Lemma inside_catch_all_only_uart (env : Env) (m : Subregion) :
  In m (address_space (trace_of (compose env))) ->
  sub_container m = iomem ->
  exists chr, serial_hds0 env = Some chr /\ m = uart_subregion chr.
Proof.
  intros Hin Hc.
  destruct (compose_trace_prefix env) as [rest Hfull].
  assert (Hin' : In m (address_space (full_trace env))).
  { rewrite Hfull, address_space_app. apply in_or_app. left. exact Hin. }
  clear Hin Hfull.
  destruct env as [sb ss irq fiq hds nd fi fb again].
  destruct hds as [chr|]; vm_compute in Hin';
    decompose [or] Hin'; try contradiction; subst; try discriminate Hc.
  exists chr. split; reflexivity.
Qed.

Section Unclaimed.
Variable device_size : MemoryRegion -> Z.

(** X11: in every state that a composition leaves, an access at an address
    of the IO window that no region other than the catch-all covers (no
    region inserted in system memory, no region inserted inside the
    catch-all) is dispatched to the catch-all region and to nothing else. *)
Theorem unclaimed_io_reaches_catch_all (env : Env) (addr : Z) :
  AST2400_IOMEM_BASE <= addr < AST2400_IOMEM_BASE + AST2400_IOMEM_SIZE ->
  (forall m, In m (address_space (trace_of (compose env))) ->
             sub_container m = get_system_memory ->
             sub_region m <> iomem ->
             covers device_size (trace_of (compose env)) m addr = false) ->
  (forall m, In m (address_space (trace_of (compose env))) ->
             sub_container m = iomem ->
             covers device_size (trace_of (compose env)) m
                    (addr - AST2400_IOMEM_BASE) = false) ->
  forall r, In r (dispatch device_size (trace_of (compose env)) addr)
            <-> r = iomem.
Proof.
  intros Hwin Hsys Hin r.
  pose proof (compose_layered env) as Hlay. rewrite Forall_forall in Hlay.
  destruct (memory_set_up_facts env) as [Hca _].
  set (tr := trace_of (compose env)) in *.
  assert (Hcov : covers device_size tr catch_all_subregion addr = true).
  { unfold covers. cbn [sub_offset sub_region catch_all_subregion].
    unfold tr. rewrite catch_all_size.
    apply andb_true_iff. split; [apply Z.leb_le | apply Z.ltb_lt]; lia. }
  assert (Hcands : forall m,
             In m (candidates device_size tr get_system_memory addr) <->
             m = catch_all_subregion).
  { intros m. rewrite in_candidates. split.
    - intros (Hm & Hc & Hcv).
      destruct (Hlay m Hm) as [-> | (_ & Hne & _)]; [reflexivity|].
      rewrite (Hsys m Hm Hc Hne) in Hcv. discriminate.
    - intros ->. split; [exact Hca|]. split; [reflexivity | exact Hcov]. }
  assert (Htop : forall m,
             In m (top_layer (candidates device_size tr get_system_memory addr))
             <-> m = catch_all_subregion).
  { intros m. rewrite in_top_layer. split.
    - intros [Hm _]. apply Hcands. exact Hm.
    - intros ->. split; [apply Hcands; reflexivity|].
      intros m' Hm'. apply Hcands in Hm'. subst. lia. }
  assert (Hinner : candidates device_size tr iomem (addr - AST2400_IOMEM_BASE)
                   = []).
  { destruct (candidates device_size tr iomem (addr - AST2400_IOMEM_BASE))
      as [|m l] eqn:Hc; [reflexivity|].
    assert (Hm : In m (candidates device_size tr iomem
                         (addr - AST2400_IOMEM_BASE)))
      by (rewrite Hc; left; reflexivity).
    apply in_candidates in Hm. destruct Hm as (Hm & Hcont & Hcv).
    rewrite (Hin m Hm Hcont) in Hcv. discriminate. }
  unfold dispatch. rewrite in_flat_map. split.
  - intros (m & Hm & Hr). apply Htop in Hm. subst m.
    cbn [sub_region sub_offset catch_all_subregion] in Hr.
    rewrite Hinner in Hr. cbn in Hr. destruct Hr as [<- | []]. reflexivity.
  - intros ->. exists catch_all_subregion. split; [apply Htop; reflexivity|].
    cbn [sub_region sub_offset catch_all_subregion].
    rewrite Hinner. left. reflexivity.
Qed.

(** X12: once the UART has been instantiated, an access at its first
    register (IO base + 0x00184000), which no region inserted in system
    memory other than the catch-all covers, is dispatched to the UART and
    to nothing else: the region inside the catch-all wins over the
    catch-all's own handlers. *)
Theorem uart_reached_inside_catch_all (env : Env) (chr : CharDriverState) :
  In (uart5_call chr) (trace_of (compose env)) ->
  0 < device_size (serial_io chr) ->
  (forall m, In m (address_space (trace_of (compose env))) ->
             sub_container m = get_system_memory ->
             sub_region m <> iomem ->
             covers device_size (trace_of (compose env)) m
                    (AST2400_IOMEM_BASE + AST2400_UART_5_BASE) = false) ->
  forall r, In r (dispatch device_size (trace_of (compose env))
                           (AST2400_IOMEM_BASE + AST2400_UART_5_BASE))
            <-> r = serial_io chr.
Proof.
  intros Huart Hsize Hsys r.
  pose proof (compose_layered env) as Hlay. rewrite Forall_forall in Hlay.
  destruct (memory_set_up_facts env) as [Hca _].
  assert (Hser : serial_hds0 env = Some chr).
  { assert (Hu : In (uart_subregion chr)
                    (address_space (trace_of (compose env))))
      by (apply (address_space_event _ _ _ Huart); left; reflexivity).
    destruct (inside_catch_all_only_uart env _ Hu eq_refl) as (c & Hc & Heq).
    injection Heq as <-. exact Hc. }
  set (tr := trace_of (compose env)) in *.
  set (addr := AST2400_IOMEM_BASE + AST2400_UART_5_BASE) in *.
  assert (Hcov : covers device_size tr catch_all_subregion addr = true).
  { unfold covers. cbn [sub_offset sub_region catch_all_subregion].
    unfold tr. rewrite catch_all_size.
    apply andb_true_iff. split; [apply Z.leb_le | apply Z.ltb_lt];
      unfold addr, AST2400_IOMEM_BASE, AST2400_UART_5_BASE, AST2400_IOMEM_SIZE;
      lia. }
  assert (Hcands : forall m,
             In m (candidates device_size tr get_system_memory addr) <->
             m = catch_all_subregion).
  { intros m. rewrite in_candidates. split.
    - intros (Hm & Hc & Hcv).
      destruct (Hlay m Hm) as [-> | (_ & Hne & _)]; [reflexivity|].
      rewrite (Hsys m Hm Hc Hne) in Hcv. discriminate.
    - intros ->. split; [exact Hca|]. split; [reflexivity | exact Hcov]. }
  assert (Htop : forall m,
             In m (top_layer (candidates device_size tr get_system_memory addr))
             <-> m = catch_all_subregion).
  { intros m. rewrite in_top_layer. split.
    - intros [Hm _]. apply Hcands. exact Hm.
    - intros ->. split; [apply Hcands; reflexivity|].
      intros m' Hm'. apply Hcands in Hm'. subst. lia. }
  assert (Hinner : forall m,
             In m (top_layer (candidates device_size tr iomem
                                (addr - AST2400_IOMEM_BASE)))
             <-> m = uart_subregion chr).
  { intros m. rewrite in_top_layer, in_candidates. split.
    - intros [(Hm & Hc & _) _].
      destruct (inside_catch_all_only_uart env m Hm Hc) as (c & Hc' & ->).
      rewrite Hser in Hc'. injection Hc' as <-. reflexivity.
    - intros ->.
      assert (Hu : In (uart_subregion chr) (address_space tr))
        by (apply (address_space_event _ _ _ Huart); left; reflexivity).
      split.
      + split; [exact Hu|]. split; [reflexivity|].
        unfold covers, region_size. cbn [sub_offset sub_region uart_subregion].
        apply andb_true_iff. split; [apply Z.leb_le | apply Z.ltb_lt];
          unfold addr; lia.
      + intros m' Hm'. apply in_candidates in Hm'.
        destruct Hm' as (Hm' & Hc' & _).
        destruct (inside_catch_all_only_uart env m' Hm' Hc') as (c & _ & ->).
        cbn. lia. }
  unfold dispatch. rewrite in_flat_map. split.
  - intros (m & Hm & Hr). apply Htop in Hm. subst m.
    cbn [sub_region sub_offset catch_all_subregion] in Hr.
    destruct (top_layer (candidates device_size tr iomem
                           (addr - AST2400_IOMEM_BASE))) as [|m1 l] eqn:Hl.
    + exfalso. assert (Hx : In (uart_subregion chr) []); [|exact Hx].
      apply Hinner. reflexivity.
    + apply in_map_iff in Hr. destruct Hr as (m & <- & Hm).
      apply Hinner in Hm. subst m. reflexivity.
  - intros ->. exists catch_all_subregion. split; [apply Htop; reflexivity|].
    cbn [sub_region sub_offset catch_all_subregion].
    destruct (top_layer (candidates device_size tr iomem
                           (addr - AST2400_IOMEM_BASE))) as [|m1 l] eqn:Hl.
    + exfalso. assert (Hx : In (uart_subregion chr) []); [|exact Hx].
      apply Hinner. reflexivity.
    + apply in_map_iff. exists (uart_subregion chr).
      split; [reflexivity | apply Hinner; reflexivity].
Qed.
End Unclaimed.

Lemma unclaimed_io_reaches_catch_all_witness :
  let env := quiet_env None user_nic in
  let addr := AST2400_IOMEM_BASE + 0x100 in
  AST2400_IOMEM_BASE <= addr < AST2400_IOMEM_BASE + AST2400_IOMEM_SIZE
  /\ forall r, In r (dispatch example_size (trace_of (compose env)) addr)
               <-> r = iomem.
Proof.
  intros env addr.
  assert (Hwin : AST2400_IOMEM_BASE <= addr
                 < AST2400_IOMEM_BASE + AST2400_IOMEM_SIZE)
    by (unfold addr, AST2400_IOMEM_BASE, AST2400_IOMEM_SIZE; lia).
  split; [exact Hwin|].
  apply (unclaimed_io_reaches_catch_all example_size env addr Hwin).
  - intros m Hm _ Hne. vm_compute in Hm.
    decompose [or] Hm; subst; try contradiction;
      first [ exfalso; apply Hne; reflexivity | vm_compute; reflexivity ].
  - intros m Hm Hc. vm_compute in Hm.
    decompose [or] Hm; subst; try contradiction; discriminate Hc.
Defined.

Lemma uart_reached_inside_catch_all_witness :
  let env := quiet_env (Some "serial0") user_nic in
  In (uart5_call "serial0") (trace_of (compose env))
  /\ 0 < example_size (serial_io "serial0")
  /\ forall r, In r (dispatch example_size (trace_of (compose env))
                              (AST2400_IOMEM_BASE + AST2400_UART_5_BASE))
               <-> r = serial_io "serial0".
Proof.
  intros env.
  assert (Hu : In (uart5_call "serial0") (trace_of (compose env)))
    by (vm_compute; in_list).
  assert (Hs : 0 < example_size (serial_io "serial0")) by reflexivity.
  split; [exact Hu|]. split; [exact Hs|].
  apply (uart_reached_inside_catch_all example_size env "serial0" Hu Hs).
  clear Hu. intros m Hm _ Hne. vm_compute in Hm.
  decompose [or] Hm; subst; try contradiction;
    first [ exfalso; apply Hne; reflexivity | vm_compute; reflexivity ].
Defined.

(** ** Sequences of accesses to the catch-all *)

(** X13: whatever sequence of reads and writes goes through the catch-all
    handlers, every read answers 0 (also a read of an offset just written:
    nothing is stored), the state of the guest is unchanged, and the log
    grows by exactly one record per access, in the order of the accesses. *)
Theorem catch_all_sequences (S : Type) (l : list Access) (w : World S) :
  perform_all (ops_table ast2400_io_ops_id) l w
  = (map catch_all_answer l,
     {| guest := guest w; log := log w ++ map catch_all_record l |}).
Proof.
  revert w. induction l as [|a l IH]; intros w.
  - cbn. rewrite app_nil_r. destruct w; reflexivity.
  - cbn [perform_all]. destruct a as [offset size | offset value size];
      cbn [perform ops_table ast2400_io_ops read write ast2400_io_read
           ast2400_io_write qemu_log_mask];
      rewrite IH; cbn [guest log map catch_all_answer catch_all_record];
      rewrite <- app_assoc; reflexivity.
Qed.

(** ** Initialisation and realization *)

(** X14: every device that a call of [ast2400_realize] touches, in any run,
    is a slave that the run created itself, or was set up by [ast2400_init]:
    the CPU returned by [cpu_arm_init], or a device that was initialised and
    put on the default system bus. *)
Theorem realize_uses_initialised_devices (env : Env) (ev : Event) (d : Obj) :
  In ev (trace_of (compose env)) ->
  In d (devices_of ev) ->
  (exists bus name a, d = i2c_slave bus name a
                      /\ In (E_i2c_create_slave bus name a)
                            (trace_of (compose env)))
  \/ set_up_by_init d.
Proof.
  intros Hev Hd.
  assert (Hslave : forall bus name a v prop,
             ev = E_object_property_set_int (i2c_slave bus name a) v prop ->
             In (E_i2c_create_slave bus name a) (trace_of (compose env))).
  { intros bus name a v prop ->.
    apply in_split in Hev. destruct Hev as (pre & post & Htr).
    pose proof (compose_precedes env pre _ post Htr) as Hok.
    rewrite Htr. apply in_or_app. left.
    cbn [precedes_ok] in Hok. apply existsb_exists in Hok.
    destruct Hok as (x & Hin & Hx).
    destruct x; try discriminate Hx. cbn [creates_slave] in Hx.
    match type of Hx with
    | (if ?c then _ else _) = _ => destruct c as [Heq|]; [|discriminate]
    end.
    injection Heq as -> -> ->. exact Hin. }
  assert (Hfull : In ev (full_trace env)).
  { destruct (compose_trace_prefix env) as [rest Hrest].
    rewrite Hrest. apply in_or_app. left. exact Hev. }
  clear Hev.
  destruct env as [sb ss irq fiq hds nd fi fb again].
  destruct hds as [chr|]; vm_compute in Hfull;
    decompose [or] Hfull; try contradiction; subst;
    cbn [devices_of In] in Hd; try contradiction;
    decompose [or] Hd; try contradiction; subst.
  all: first
         [ left; do 3 eexists; split; [reflexivity|];
           eapply Hslave; reflexivity
         | right; left; split; [reflexivity | unfold ast2400_init; in_list]
         | right; right; eexists; split; unfold ast2400_init; in_list ].
Qed.

Lemma realize_uses_initialised_devices_witness :
  let env := quiet_env (Some "serial0") user_nic in
  In (E_sysbus_connect_irq gem 0 (qdev_get_gpio_in vic CDNS_GEM_IRQ))
     (trace_of (compose env))
  /\ set_up_by_init gem.
Proof.
  intros env.
  assert (Hev : In (E_sysbus_connect_irq gem 0 (qdev_get_gpio_in vic CDNS_GEM_IRQ))
                   (trace_of (compose env))) by (vm_compute; in_list).
  split; [exact Hev|].
  destruct (realize_uses_initialised_devices env _ gem Hev (or_introl eq_refl))
    as [(bus & name & a & Heq & _) | Hinit].
  - discriminate Heq.
  - exact Hinit.
Defined.

(** ** The tables of a successful composition *)

(** X15: in a successful composition the value applied as the "dual_edge"
    mask of the interrupt controller has exactly the bits of the inputs that
    the eight timer outputs are wired to, and no bit in common with the
    "sense" mask. *)
Theorem dual_edge_mask_is_the_timer_inputs
    (env : Env) (tr : list Event) (v s : Z) :
  compose env = Finished None tr ->
  In (E_object_property_set_int vic v "dual_edge") tr ->
  In (E_object_property_set_int vic s "sense") tr ->
  v = mask_of (timer_inputs tr) /\ Z.land s v = 0.
Proof.
  intros H Hv Hs. success_trace H.
  all: vm_compute in Hv; vm_compute in Hs.
  all: decompose [or] Hv; try contradiction;
    try match goal with H : _ = _ |- _ => discriminate H end.
  all: match goal with
       | H : E_object_property_set_int _ _ _ = _ |- _ => injection H as <-
       end.
  all: decompose [or] Hs; try contradiction;
    try match goal with H : _ = _ |- _ => discriminate H end.
  all: match goal with
       | H : E_object_property_set_int _ _ _ = _ |- _ => injection H as <-
       end.
  all: split; vm_compute; reflexivity.
Qed.

Lemma dual_edge_mask_is_the_timer_inputs_witness :
  let env := quiet_env None user_nic in
  compose env = Finished None (full_trace env)
  /\ 0x000000F800070000 = mask_of (timer_inputs (full_trace env)).
Proof.
  intros env.
  assert (H : compose env = Finished None (full_trace env))
    by (vm_compute; reflexivity).
  assert (Hv : In (E_object_property_set_int vic 0x000000F800070000 "dual_edge")
                  (full_trace env)) by (vm_compute; in_list).
  assert (Hs : In (E_object_property_set_int vic 0x00001F07FFF8FFFF "sense")
                  (full_trace env)) by (vm_compute; in_list).
  split; [exact H|].
  exact (proj1 (dual_edge_mask_is_the_timer_inputs env _ _ _ H Hv Hs)).
Defined.

Lemma vic_inputs_app (l1 l2 : list Event) :
  vic_inputs (l1 ++ l2) = vic_inputs l1 ++ vic_inputs l2.
Proof.
  unfold vic_inputs, irq_wiring. rewrite !flat_map_app. reflexivity.
Qed.

(** X16: in every run, finished or cut short, no input of the interrupt
    controller is wired twice: the inputs given to the timer outputs, the
    MAC, the UART and the two-wire bus controller are pairwise distinct. *)
Theorem vic_inputs_wired_once (env : Env) :
  NoDup (vic_inputs (trace_of (compose env))).
Proof.
  destruct (compose_trace_prefix env) as [rest Hfull].
  assert (Hall : NoDup (vic_inputs (full_trace env))).
  { clear Hfull. destruct env as [sb ss irq fiq hds nd fi fb again].
    destruct hds as [chr|]; vm_compute.
    all: repeat (apply NoDup_cons;
                 [ intros Hin; cbn in Hin; decompose [or] Hin;
                   first [ contradiction | discriminate ] |]).
    all: apply NoDup_nil. }
  rewrite Hfull, vic_inputs_app in Hall.
  exact (NoDup_app_remove_r _ _ Hall).
Qed.

(** X17: a successful composition applies exactly these integer properties,
    in this order: the three masks of the interrupt controller, the four
    presets of the system-control unit and the four readings of the tmp423
    sensor; nothing is applied to the timer, the MAC, the two-wire bus
    controller or the ds1338. *)
Theorem configuration_table (env : Env) (tr : list Event) :
  compose env = Finished None tr ->
  let tmp423 := i2c_slave (aspeed_i2c_get_bus i2c 2) "tmp423" 0x4c in
  int_properties tr
  = [ (vic, "sense", 0x00001F07FFF8FFFF);
      (vic, "dual_edge", 0x000000F800070000);
      (vic, "event", 0x00005F07FFF8FFFF);
      (scu, "scu0c", 0x19FC3E8B);
      (scu, "scu88", 0x01000000);
      (scu, "scu8c", 0x000000FF);
      (scu, "scu9c", 0x003FFFF3);
      (tmp423, "temperature0", 31000);
      (tmp423, "temperature1", 28000);
      (tmp423, "temperature2", 20000);
      (tmp423, "temperature3", 110000) ].
Proof.
  intros H. success_trace H. all: vm_compute; reflexivity.
Qed.

Lemma configuration_table_witness :
  let env := quiet_env (Some "serial0") no_nic in
  compose env = Finished None (full_trace env)
  /\ List.length (int_properties (full_trace env)) = 11%nat.
Proof.
  intros env.
  assert (H : compose env = Finished None (full_trace env))
    by (vm_compute; reflexivity).
  split; [exact H|].
  rewrite (configuration_table env _ H). reflexivity.
Defined.

(** X18: a successful composition creates exactly two slaves, after the
    two-wire bus controller has been mapped and wired: the tmp423 at address
    0x4c on bus 2, then the ds1338 at address 0x68 on bus 0, whose creation
    is the last call of the run. *)
Theorem slaves_created (env : Env) (tr : list Event) :
  compose env = Finished None tr ->
  filter is_slave_creation tr
  = [ E_i2c_create_slave (aspeed_i2c_get_bus i2c 2) "tmp423" 0x4c;
      E_i2c_create_slave (aspeed_i2c_get_bus i2c 0) "ds1338" 0x68 ]
  /\ exists pre mid,
       tr = pre
            ++ [ E_sysbus_mmio_map i2c 0 AST2400_I2C_BASE;
                 E_sysbus_connect_irq i2c 0 (qdev_get_gpio_in vic 12);
                 E_i2c_create_slave (aspeed_i2c_get_bus i2c 2) "tmp423" 0x4c ]
            ++ mid
            ++ [ E_i2c_create_slave (aspeed_i2c_get_bus i2c 0) "ds1338" 0x68 ].
Proof.
  intros H. success_trace H.
  - split; [vm_compute; reflexivity|].
    match goal with
    | |- context [full_trace ?E] =>
        exists (firstn 34 (full_trace E)),
               (firstn 4 (skipn 37 (full_trace E)))
    end.
    vm_compute. reflexivity.
  - split; [vm_compute; reflexivity|].
    match goal with
    | |- context [full_trace ?E] =>
        exists (firstn 33 (full_trace E)),
               (firstn 4 (skipn 36 (full_trace E)))
    end.
    vm_compute. reflexivity.
Qed.

Lemma slaves_created_witness :
  let env := quiet_env None user_nic in
  compose env = Finished None (full_trace env)
  /\ filter is_slave_creation (full_trace env)
     = [ E_i2c_create_slave (aspeed_i2c_get_bus i2c 2) "tmp423" 0x4c;
         E_i2c_create_slave (aspeed_i2c_get_bus i2c 0) "ds1338" 0x68 ].
Proof.
  intros env.
  assert (H : compose env = Finished None (full_trace env))
    by (vm_compute; reflexivity).
  split; [exact H|].
  exact (proj1 (slaves_created env _ H)).
Defined.

(** X19: the address space after a successful composition holds exactly
    these regions, in insertion order: the SRAM, the catch-all, the
    interrupt controller, the timer block, the MAC, the system-control unit,
    the UART (inside the catch-all, only with a serial backend) and the
    two-wire bus controller, each at its fixed place. *)
Theorem address_map (env : Env) (tr : list Event) :
  compose env = Finished None tr ->
  address_space tr
  = [ {| sub_container := get_system_memory;
         sub_offset := AST2400_SRAM_BASE env;
         sub_region := sram; sub_priority := 0 |};
      catch_all_subregion;
      peripheral_subregion vic 0x1E6C0000;
      peripheral_subregion timerctrl 0x1E782000;
      peripheral_subregion gem 0x1E680000;
      peripheral_subregion scu 0x1E6E2000 ]
    ++ match serial_hds0 env with
       | Some chr => [uart_subregion chr]
       | None => []
       end
    ++ [ peripheral_subregion i2c 0x1E78A000 ].
Proof.
  intros H. success_trace H. all: vm_compute; reflexivity.
Qed.

Lemma address_map_witness :
  let env := quiet_env None user_nic in
  compose env = Finished None (full_trace env)
  /\ List.length (address_space (full_trace env)) = 7%nat.
Proof.
  intros env.
  assert (H : compose env = Finished None (full_trace env))
    by (vm_compute; reflexivity).
  split; [exact H|].
  rewrite (address_map env _ H). reflexivity.
Defined.

(** X20: the wires of a successful composition are exactly these, in call
    order: the two outputs of the interrupt controller to the IRQ and FIQ
    inputs of the CPU, the eight timer outputs, the MAC, the UART (only with
    a serial backend) and the two-wire bus controller to their inputs of the
    interrupt controller; the system-control unit has no wire. *)
Theorem wiring_table (env : Env) (tr : list Event) :
  compose env = Finished None tr ->
  irq_wiring tr
  = [ (sysbus_irq_out vic 0, qdev_get_gpio_in cpu (ARM_CPU_IRQ env));
      (sysbus_irq_out vic 1, qdev_get_gpio_in cpu (ARM_CPU_FIQ env));
      (sysbus_irq_out timerctrl 0, qdev_get_gpio_in vic 16);
      (sysbus_irq_out timerctrl 1, qdev_get_gpio_in vic 17);
      (sysbus_irq_out timerctrl 2, qdev_get_gpio_in vic 18);
      (sysbus_irq_out timerctrl 3, qdev_get_gpio_in vic 35);
      (sysbus_irq_out timerctrl 4, qdev_get_gpio_in vic 36);
      (sysbus_irq_out timerctrl 5, qdev_get_gpio_in vic 37);
      (sysbus_irq_out timerctrl 6, qdev_get_gpio_in vic 38);
      (sysbus_irq_out timerctrl 7, qdev_get_gpio_in vic 39);
      (sysbus_irq_out gem 0, qdev_get_gpio_in vic 3) ]
    ++ match serial_hds0 env with
       | Some chr => [ (serial_irq_out chr, qdev_get_gpio_in vic 10) ]
       | None => []
       end
    ++ [ (sysbus_irq_out i2c 0, qdev_get_gpio_in vic 12) ].
Proof.
  intros H. success_trace H. all: vm_compute; reflexivity.
Qed.

Lemma wiring_table_witness :
  let env := quiet_env (Some "serial0") user_nic in
  compose env = Finished None (full_trace env)
  /\ List.length (irq_wiring (full_trace env)) = 13%nat.
Proof.
  intros env.
  assert (H : compose env = Finished None (full_trace env))
    by (vm_compute; reflexivity).
  split; [exact H|].
  rewrite (wiring_table env _ H). reflexivity.
Defined.

(** ** Runs that differ in what the collaborators report *)

Lemma full_trace_same_inputs (env env' : Env) :
  same_inputs env env' -> full_trace env = full_trace env'.
Proof.
  destruct env as [sb ss irq fiq hds nd fi fb again].
  destruct env' as [sb' ss' irq' fiq' hds' nd' fi' fb' again'].
  unfold same_inputs. cbn [AST2400_SRAM_BASE AST2400_SRAM_SIZE ARM_CPU_IRQ
                           ARM_CPU_FIQ serial_hds0 nd_table0].
  intros (-> & -> & -> & -> & -> & ->).
  destruct hds' as [chr|]; reflexivity.
Qed.

Lemma prefixes_comparable {A} (l l1 l2 r1 r2 : list A) :
  l = l1 ++ r1 -> l = l2 ++ r2 ->
  (exists d, l1 = l2 ++ d) \/ (exists d, l2 = l1 ++ d).
Proof.
  revert l l2 r1 r2. induction l1 as [|x l1 IH]; intros l l2 r1 r2 H1 H2.
  - right. exists l2. reflexivity.
  - destruct l2 as [|y l2].
    + left. exists (x :: l1). reflexivity.
    + subst l. cbn [app] in H2. injection H2 as <- H2.
      destruct (IH _ l2 r1 r2 eq_refl H2) as [[d ->] | [d ->]].
      * left. exists d. reflexivity.
      * right. exists d. reflexivity.
Qed.

(** X21: the calls of a run do not depend on what the collaborators report,
    only the place where the run stops does: the calls of any run are an
    initial segment of the calls of the undisturbed run, and of two runs
    with the same constants and backends one makes the calls of the other
    and possibly more. *)
Theorem failures_only_shorten_the_run (env env' : Env) :
  same_inputs env env' ->
  (exists rest, full_trace env = trace_of (compose env) ++ rest)
  /\ ((exists more, trace_of (compose env) = trace_of (compose env') ++ more)
      \/ (exists more, trace_of (compose env') = trace_of (compose env) ++ more)).
Proof.
  intros Hsame.
  destruct (compose_trace_prefix env) as [rest Hrest].
  destruct (compose_trace_prefix env') as [rest' Hrest'].
  split; [exists rest; exact Hrest|].
  rewrite <- (full_trace_same_inputs env env' Hsame) in Hrest'.
  exact (prefixes_comparable _ _ _ _ _ Hrest Hrest').
Qed.

Lemma failures_only_shorten_the_run_witness :
  let env := failing_activation_env None timerctrl "no timer" in
  let env' := failing_int_env None scu "scu8c" "bad preset" in
  same_inputs env env'
  /\ ((exists more, trace_of (compose env) = trace_of (compose env') ++ more)
      \/ (exists more, trace_of (compose env') = trace_of (compose env) ++ more)).
Proof.
  intros env env'.
  assert (Hsame : same_inputs env env') by (repeat split).
  split; [exact Hsame|].
  exact (proj2 (failures_only_shorten_the_run env env' Hsame)).
Defined.
